(** * VATEAM: sensor bridge, simulator facade, settings and renderer

    A shallow embedding of the Python sources
      - [src/carla_interface/sensors.py]   (module [Sensors]),
      - [src/carla_interface/simulator.py] (module [Simulator]),
      - [src/config/settings.py]           (module [Settings]),
      - [src/visualization/renderer.py]    (module [Renderer]),
    together with the parts of their environment they call into: Python
    exceptions (module [Py]), NumPy buffers and reshaping (module [Numpy])
    and the CARLA actor API (module [Carla]).

    Definitions come first; the statements about them are collected in the
    [...Facts] modules at the end of the file. *)

From Stdlib Require Import List Arith Lia Bool String Ascii ZArith QArith Lqa.
From Stdlib Require Import Strings.Byte.
Import ListNotations.
Close Scope Q_scope.
Open Scope string_scope.
Open Scope list_scope.
Open Scope nat_scope.

Set Implicit Arguments.

(* ================================================================== *)
(** ** Python exceptions and fallible computations *)

Module Py.

(** The exception classes the sources raise or provoke. *)
Inductive exn : Type :=
| RuntimeError (msg : string)
| ValueError (msg : string)
| TypeError (msg : string)
| AttributeError (msg : string)
| IndexError (msg : string).

(** [str(e)] of an exception built from one message. *)
Definition str_exn (e : exn) : string :=
  match e with
  | RuntimeError m | ValueError m | TypeError m
  | AttributeError m | IndexError m => m
  end.

(** A call either returns or raises. *)
Inductive result (A : Type) : Type :=
| Ok (a : A)
| Raise (e : exn).

Arguments Ok {A} a.
Arguments Raise {A} e.

Definition bind {A B} (c : result A) (k : A -> result B) : result B :=
  match c with
  | Ok a => k a
  | Raise e => Raise e
  end.

Definition raises {A} (c : result A) : bool :=
  match c with Ok _ => false | Raise _ => true end.

(** [needle in hay] on Python strings. *)
Definition contains (needle hay : string) : bool :=
  match String.index 0 needle hay with
  | Some _ => true
  | None => false
  end.

End Py.

Import Py.

Declare Scope py_scope.
Delimit Scope py_scope with py.
Notation "x <- c ;; k" := (Py.bind c (fun x => k))
  (at level 61, c at next level, right associativity) : py_scope.
Notation "' pat <- c ;; k" := (Py.bind c (fun x => match x with pat => k end))
  (at level 61, pat pattern, c at next level, right associativity) : py_scope.
Open Scope py_scope.

(* ================================================================== *)
(** ** NumPy: typed views of a raw buffer *)

Module Numpy.

(** An n-dimensional array: its shape and its elements in row-major
    (C) order.  The element type [A] is the array's dtype: [byte] for
    [uint8], [float32] for ['f4']. *)
Record ndarray (A : Type) : Type := mk_ndarray {
  shape : list nat;
  data : list A
}.

(** A 32-bit float, identified by its four bytes in buffer order;
    [frombuffer] reinterprets, it does not convert. *)
Record float32 : Type := mk_float32 {
  f32_b0 : byte; f32_b1 : byte; f32_b2 : byte; f32_b3 : byte
}.

Definition prod_shape (s : list nat) : nat := fold_right Nat.mul 1 s.

(** [np.frombuffer(raw, dtype=np.dtype("uint8"))]. *)
Definition frombuffer_uint8 (raw : list byte) : ndarray byte :=
  {| shape := [List.length raw]; data := raw |}.

(** Consecutive groups of four bytes; a trailing group of fewer than four
    bytes is dropped (the caller rejects such buffers first). *)
Fixpoint group4 (raw : list byte) : list float32 :=
  match raw with
  | b0 :: b1 :: b2 :: b3 :: rest => mk_float32 b0 b1 b2 b3 :: group4 rest
  | _ => []
  end.

(** [np.frombuffer(raw, dtype=np.dtype('f4'))]: the buffer size must be a
    multiple of the element size. *)
Definition frombuffer_f4 (raw : list byte) : result (ndarray float32) :=
  if List.length raw mod 4 =? 0
  then Ok {| shape := [List.length raw / 4]; data := group4 raw |}
  else Raise (ValueError "buffer size must be a multiple of element size").

(** [np.reshape(a, new_shape)]: same elements, same order, new shape; the
    sizes must agree. *)
Definition reshape {A} (a : ndarray A) (new_shape : list nat)
  : result (ndarray A) :=
  if prod_shape new_shape =? List.length (data a)
  then Ok {| shape := new_shape; data := data a |}
  else Raise (ValueError "cannot reshape array").

(** [a[:, :, :k]] on a three-dimensional array. *)
Definition take_channels {A} (k : nat) (a : ndarray A) : result (ndarray A) :=
  match shape a with
  | [h; w; c] =>
      Ok {| shape := [h; w; Nat.min k c];
            data := flat_map (fun p => firstn (Nat.min k c) (skipn (p * c) (data a)))
                             (seq 0 (h * w)) |}
  | _ => Raise (IndexError "too many indices for array")
  end.

(** [a[:, :, k]] on a three-dimensional array. *)
Definition select_channel {A} (k : nat) (a : ndarray A) : result (ndarray A) :=
  match shape a with
  | [h; w; c] =>
      if k <? c
      then Ok {| shape := [h; w];
                 data := flat_map (fun p => firstn 1 (skipn (p * c + k) (data a)))
                                  (seq 0 (h * w)) |}
      else Raise (IndexError "index is out of bounds for axis 2")
  | _ => Raise (IndexError "too many indices for array")
  end.

(** Element access [a[i, j, k]] and [a[i, j]]. *)
Definition item3 {A} (a : ndarray A) (i j k : nat) : option A :=
  match shape a with
  | [h; w; c] =>
      if (i <? h) && (j <? w) && (k <? c)
      then nth_error (data a) ((i * w + j) * c + k)
      else None
  | _ => None
  end.

Definition item2 {A} (a : ndarray A) (i j : nat) : option A :=
  match shape a with
  | [h; w] =>
      if (i <? h) && (j <? w)
      then nth_error (data a) (i * w + j)
      else None
  | _ => None
  end.

End Numpy.

Import Numpy.

(* ================================================================== *)
(** ** The CARLA client API, as far as the sources call into it *)

Module Carla.

(** Coordinates and angles are rationals: the sources copy them around
    and add the constant 0.2 to one of them, nothing else. *)
Record Location : Type := mk_Location { loc_x : Q; loc_y : Q; loc_z : Q }.
Record Rotation : Type := mk_Rotation { pitch : Q; yaw : Q; roll : Q }.
Record Transform : Type := mk_Transform {
  location : Location;
  rotation : Rotation
}.

Definition ActorId : Type := nat.

(** An attribute value is a string; [AttrNum q] stands for the text
    [str(q)] of a number. *)
Inductive AttrValue : Type :=
| AttrStr (s : string)
| AttrNum (q : Q).

Record Blueprint : Type := mk_Blueprint {
  bp_id : string;
  bp_attributes : list (string * AttrValue)
}.

Definition set_attribute (bp : Blueprint) (name : string) (v : AttrValue)
  : Blueprint :=
  {| bp_id := bp_id bp; bp_attributes := bp_attributes bp ++ [(name, v)] |}.

Record Actor : Type := mk_Actor {
  actor_blueprint : Blueprint;
  actor_transform : Transform;
  actor_parent : option ActorId;
  is_alive : bool;
  is_listening : bool;
  (** how many times [destroy()] was called on this actor *)
  destroy_calls : nat
}.

(** The simulator: the blueprint ids it knows, where a spawn collides
    given the actors already there, and every actor spawned so far (an
    actor's id is its position in [actors]). *)
Record World : Type := mk_World {
  library : list string;
  blocked : list Actor -> option ActorId -> Transform -> bool;
  actors : list Actor
}.

Definition with_actors (w : World) (l : list Actor) : World :=
  {| library := library w; blocked := blocked w; actors := l |}.

(** [world.get_blueprint_library().find(id)], [None] when there is none. *)
Definition find (w : World) (id : string) : option Blueprint :=
  if existsb (String.eqb id) (library w)
  then Some {| bp_id := id; bp_attributes := [] |}
  else None.

Definition new_actor (bp : Blueprint) (t : Transform) (parent : option ActorId)
  : Actor :=
  {| actor_blueprint := bp; actor_transform := t; actor_parent := parent;
     is_alive := true; is_listening := false; destroy_calls := 0 |}.

(** [world.try_spawn_actor(bp, t, attach_to)]: [None] on a collision. *)
Definition try_spawn_actor (w : World) (bp : Blueprint) (t : Transform)
  (parent : option ActorId) : option ActorId * World :=
  if blocked w (actors w) parent t
  then (None, w)
  else (Some (List.length (actors w)),
        with_actors w (actors w ++ [new_actor bp t parent])).

(** [world.spawn_actor(bp, t, attach_to)]: raises on a collision. *)
Definition spawn_actor (w : World) (bp : Blueprint) (t : Transform)
  (parent : option ActorId) : result (ActorId * World) :=
  match try_spawn_actor w bp t parent with
  | (Some id, w') => Ok (id, w')
  | (None, _) =>
      Raise (RuntimeError "Spawn failed because of collision at spawn position")
  end.

Fixpoint update_nth {A} (n : nat) (f : A -> A) (l : list A) : list A :=
  match l, n with
  | [], _ => []
  | a :: l', 0 => f a :: l'
  | a :: l', S n' => a :: update_nth n' f l'
  end.

(** [actor.listen(callback)]. *)
Definition listen (w : World) (id : ActorId) : World :=
  with_actors w
    (update_nth id
       (fun a => {| actor_blueprint := actor_blueprint a;
                    actor_transform := actor_transform a;
                    actor_parent := actor_parent a;
                    is_alive := is_alive a;
                    is_listening := is_alive a;
                    destroy_calls := destroy_calls a |})
       (actors w)).

(** [actor.destroy()]: the actor is gone and delivers nothing any more;
    every call is counted. *)
Definition destroy (w : World) (id : ActorId) : World :=
  with_actors w
    (update_nth id
       (fun a => {| actor_blueprint := actor_blueprint a;
                    actor_transform := actor_transform a;
                    actor_parent := actor_parent a;
                    is_alive := false;
                    is_listening := false;
                    destroy_calls := S (destroy_calls a) |})
       (actors w)).

Definition destroy_count (w : World) (id : ActorId) : nat :=
  match nth_error (actors w) id with
  | Some a => destroy_calls a
  | None => 0
  end.

Definition alive (w : World) (id : ActorId) : bool :=
  match nth_error (actors w) id with
  | Some a => is_alive a
  | None => false
  end.

End Carla.

(* ================================================================== *)
(** ** sensors.py: the sensor bridge *)

Module Sensors.

Import Carla.

Record SensorConfig : Type := mk_SensorConfig {
  cfg_location : Q * Q * Q;
  cfg_rotation : Q * Q * Q;
  attachment : option ActorId
}.

(** The four subclasses of [BaseSensor] with their own constructor
    arguments.  [BaseSensor] itself leaves [spawn] and [_sensor_callback]
    unimplemented, so every bridge is one of these. *)
Inductive SensorKind : Type :=
| RGBCamera (fov : Q)
| LidarSensor (channels : Z) (range : Q)
| SemanticCamera (fov : Q)
| DepthCamera (fov : Q).

(** What the simulator hands to [_sensor_callback]: [carla.Image] has all
    three fields, [carla.LidarMeasurement] only [raw_data]. *)
Record SensorData : Type := mk_SensorData {
  raw_data : list byte;
  height : nat;
  width : nat
}.

(** A decoded frame: a [uint8] or a [float32] array. *)
Inductive Frame : Type :=
| U8Frame (a : ndarray byte)
| F32Frame (a : ndarray float32).

Inductive DType : Type := uint8 | f4.

Definition dtype (f : Frame) : DType :=
  match f with U8Frame _ => uint8 | F32Frame _ => f4 end.

(** Where the thread running [_process_data] stands: at the test of
    [while self.running], inside [self.queue.get(timeout=0.1)], or past
    the loop. *)
Inductive ThreadState : Type := AtLoopTest | InQueueGet | Exited.

Record BaseSensor : Type := mk_BaseSensor {
  kind : SensorKind;
  config : SensorConfig;
  sensor : option ActorId;
  queue : list Frame;
  thread : option nat;
  running : bool
}.

(** The world the bridge lives in and the Python threads started so far
    (a thread's id is its position in [threads]). *)
Record Runtime : Type := mk_Runtime {
  world : World;
  threads : list ThreadState
}.

(** [__init__]. *)
Definition init (k : SensorKind) (c : SensorConfig) : BaseSensor :=
  {| kind := k; config := c; sensor := None; queue := [];
     thread := None; running := false |}.

Definition with_queue (b : BaseSensor) (q : list Frame) : BaseSensor :=
  {| kind := kind b; config := config b; sensor := sensor b; queue := q;
     thread := thread b; running := running b |}.

Definition blueprint_id (k : SensorKind) : string :=
  match k with
  | RGBCamera _ => "sensor.camera.rgb"
  | LidarSensor _ _ => "sensor.lidar.ray_cast"
  | SemanticCamera _ => "sensor.camera.semantic_segmentation"
  | DepthCamera _ => "sensor.camera.depth"
  end.

Definition configure (k : SensorKind) (bp : Blueprint) : Blueprint :=
  match k with
  | RGBCamera fov | SemanticCamera fov | DepthCamera fov =>
      set_attribute bp "fov" (AttrNum fov)
  | LidarSensor channels range =>
      set_attribute (set_attribute bp "channels" (AttrNum (inject_Z channels)))
                    "range" (AttrNum range)
  end.

Definition config_transform (c : SensorConfig) : Transform :=
  let '(x, y, z) := cfg_location c in
  let '(p, yw, r) := cfg_rotation c in
  mk_Transform (mk_Location x y z) (mk_Rotation p yw r).

(** [spawn()], the same in the four subclasses up to the blueprint: look
    the blueprint up, set its attributes, spawn the actor (a failure
    propagates), register the callback, set [running] and start the
    consumer thread. *)
Definition spawn (rt : Runtime) (b : BaseSensor)
  : result (Runtime * BaseSensor) :=
  match find (world rt) (blueprint_id (kind b)) with
  | None =>
      Raise (AttributeError "'NoneType' object has no attribute 'set_attribute'")
  | Some blueprint =>
      let blueprint := configure (kind b) blueprint in
      let transform := config_transform (config b) in
      '(id, w) <- spawn_actor (world rt) blueprint transform
                              (attachment (config b)) ;;
      let w := listen w id in
      Ok ({| world := w; threads := threads rt ++ [AtLoopTest] |},
          {| kind := kind b; config := config b; sensor := Some id;
             queue := queue b;
             thread := Some (List.length (threads rt));
             running := true |})
  end.

(** One step of the thread running [_process_data]: the loop test reads
    [self.running]; [queue.get(timeout=0.1)] takes the oldest frame and
    drops it, or times out on an empty queue, and the loop goes round. *)
Definition process_data_step (b : BaseSensor) (t : ThreadState)
  : ThreadState * BaseSensor :=
  match t with
  | AtLoopTest => if running b then (InQueueGet, b) else (Exited, b)
  | InQueueGet => (AtLoopTest, with_queue b (tl (queue b)))
  | Exited => (Exited, b)
  end.

(** [thread.join()]: the caller waits until the thread has left its loop.
    With [running] cleared that takes at most the pending [get] and one
    loop test. *)
Definition join (b : BaseSensor) (t : ThreadState) : ThreadState * BaseSensor :=
  let '(t1, b1) := process_data_step b t in
  process_data_step b1 t1.

(** [destroy()]. *)
Definition destroy (rt : Runtime) (b : BaseSensor) : Runtime * BaseSensor :=
  let b := {| kind := kind b; config := config b; sensor := sensor b;
              queue := queue b; thread := thread b; running := false |} in
  let '(ths, b) :=
    match thread b with
    | Some tid =>
        match nth_error (threads rt) tid with
        | Some t =>
            let '(t', b') := join b t in
            (update_nth tid (fun _ => t') (threads rt), b')
        | None => (threads rt, b)
        end
    | None => (threads rt, b)
    end in
  let w :=
    match sensor b with
    | Some id => Carla.destroy (world rt) id
    | None => world rt
    end in
  ({| world := w; threads := ths |}, b).

(** [get_data()]: [queue.get_nowait()], with [None] when it raises
    [Empty]. *)
Definition get_data (b : BaseSensor) : option Frame * BaseSensor :=
  match queue b with
  | [] => (None, b)
  | f :: q => (Some f, with_queue b q)
  end.

(** The decode step of each subclass's [_sensor_callback].  For the
    lidar, [int(array.shape[0] / 4)] is the quotient [shape[0] / 4]
    rounded down (the float division is exact for every buffer that fits
    in memory). *)
Definition decode (k : SensorKind) (d : SensorData) : result Frame :=
  match k with
  | RGBCamera _ =>
      let array := frombuffer_uint8 (raw_data d) in
      array <- reshape array [height d; width d; 4] ;;
      array <- take_channels 3 array ;;
      Ok (U8Frame array)
  | LidarSensor _ _ =>
      array <- frombuffer_f4 (raw_data d) ;;
      array <- reshape array [hd 0 (shape array) / 4; 4] ;;
      Ok (F32Frame array)
  | SemanticCamera _ | DepthCamera _ =>
      let array := frombuffer_uint8 (raw_data d) in
      array <- reshape array [height d; width d; 4] ;;
      array <- select_channel 0 array ;;
      Ok (U8Frame array)
  end.

(** [_sensor_callback(data)]: decode, then [self.queue.put(array)]. *)
Definition sensor_callback (b : BaseSensor) (d : SensorData)
  : result BaseSensor :=
  array <- decode (kind b) d ;;
  Ok (with_queue b (queue b ++ [array])).

(** *** Threads of control around one bridge

    The simulator's delivery thread calls [_sensor_callback], the threads
    started by [spawn] run [_process_data], and the control loop calls
    [get_data]; [Queue] makes each access atomic, so an execution is a
    sequence of such steps. *)
Inductive Event : Type :=
| Deliver (d : SensorData)
| Consumer (tid : nat)
| Poll.

Definition State : Type := (Runtime * BaseSensor)%type.

(** One step; a [Poll] also yields what [get_data] returned.  A callback
    that raises leaves the bridge as it was. *)
Definition step (s : State) (e : Event) : State * list (option Frame) :=
  let '(rt, b) := s in
  match e with
  | Deliver d =>
      match sensor_callback b d with
      | Ok b' => ((rt, b'), [])
      | Raise _ => ((rt, b), [])
      end
  | Consumer tid =>
      match nth_error (threads rt) tid with
      | Some t =>
          let '(t', b') := process_data_step b t in
          (({| world := world rt;
               threads := update_nth tid (fun _ => t') (threads rt) |}, b'), [])
      | None => ((rt, b), [])
      end
  | Poll =>
      let '(r, b') := get_data b in
      ((rt, b'), [r])
  end.

Fixpoint run (s : State) (es : list Event) : State * list (option Frame) :=
  match es with
  | [] => (s, [])
  | e :: es' =>
      let '(s1, out1) := step s e in
      let '(s2, out2) := run s1 es' in
      (s2, out1 ++ out2)
  end.

(** The raw frames a schedule delivers, in order. *)
Fixpoint deliveries (es : list Event) : list SensorData :=
  match es with
  | [] => []
  | Deliver d :: es' => d :: deliveries es'
  | _ :: es' => deliveries es'
  end.

(** The frames among the results of [get_data]. *)
Fixpoint frames_of (out : list (option Frame)) : list Frame :=
  match out with
  | [] => []
  | Some f :: out' => f :: frames_of out'
  | None :: out' => frames_of out'
  end.

(** Decoding a list of raw frames, all of which must decode. *)
Fixpoint decode_all (k : SensorKind) (ds : list SensorData)
  : result (list Frame) :=
  match ds with
  | [] => Ok []
  | d :: ds' =>
      f <- decode k d ;;
      fs <- decode_all k ds' ;;
      Ok (f :: fs)
  end.

(** [l1] is [l2] with some elements left out. *)
Inductive subseq {A} : list A -> list A -> Prop :=
| subseq_nil : subseq [] []
| subseq_skip : forall x l1 l2, subseq l1 l2 -> subseq l1 (x :: l2)
| subseq_take : forall x l1 l2, subseq l1 l2 -> subseq (x :: l1) (x :: l2).

(** *** Buffers that decode, and executions without the consumer *)

(** The buffer sizes the decode step accepts: [height * width * 4] bytes
    for the cameras, a whole number of points (16 bytes each) for the
    lidar. *)
Definition well_sized (k : SensorKind) (d : SensorData) : bool :=
  match k with
  | LidarSensor _ _ => List.length (raw_data d) mod 16 =? 0
  | _ => List.length (raw_data d) =? height d * width d * 4
  end.

(** The frames of the deliveries that decode, in order. *)
Fixpoint decoded (k : SensorKind) (ds : list SensorData) : list Frame :=
  match ds with
  | [] => []
  | d :: ds' =>
      match decode k d with
      | Ok f => f :: decoded k ds'
      | Raise _ => decoded k ds'
      end
  end.

(** A schedule with the steps of the consumer threads left out. *)
Fixpoint without_consumers (es : list Event) : list Event :=
  match es with
  | [] => []
  | Consumer _ :: es' => without_consumers es'
  | e :: es' => e :: without_consumers es'
  end.

End Sensors.

(* ================================================================== *)
(** ** Python dicts with string keys, in insertion order *)

Module Dict.

Section Dict.
Context {V : Type}.

(** [d.get(k)]. *)
Fixpoint lookup (d : list (string * V)) (k : string) : option V :=
  match d with
  | [] => None
  | (k', v) :: d' => if String.eqb k k' then Some v else lookup d' k
  end.

(** [d.get(k, default)]. *)
Definition get (d : list (string * V)) (k : string) (default : V) : V :=
  match lookup d k with
  | Some v => v
  | None => default
  end.

(** [d[k] = v]: an existing key keeps its place, a new one goes last. *)
Fixpoint set (d : list (string * V)) (k : string) (v : V)
  : list (string * V) :=
  match d with
  | [] => [(k, v)]
  | (k', v') :: d' =>
      if String.eqb k k' then (k', v) :: d' else (k', v') :: set d' k v
  end.

(** [d.values()]. *)
Definition values (d : list (string * V)) : list V := map snd d.

End Dict.

End Dict.

(* ================================================================== *)
(** ** simulator.py: the simulator facade *)

Module Simulator.

Import Carla.

Record Client : Type := mk_Client {
  host : string;
  port : Z;
  client_timeout : Q
}.

(** [self.world] is a handle on the simulator's world; the world itself
    is the [Carla.World] the operations below pass along. *)
Inductive WorldHandle : Type := world_handle.

Record CarlaSimulator : Type := mk_CarlaSimulator {
  client : option Client;
  world : option WorldHandle;
  vehicle : option ActorId;
  sensors : list (string * ActorId);
  sensor_data : list (string * Sensors.Frame)
}.

(** [__init__]. *)
Definition init : CarlaSimulator :=
  {| client := None; world := None; vehicle := None;
     sensors := []; sensor_data := [] |}.

(** [connect(host, port)]; [reachable] says whether the server answers
    [get_world()] within the timeout.  On a failure the client object is
    already stored when the error is re-raised. *)
Definition connect (reachable : bool) (s : CarlaSimulator)
  (host : string) (port : Z) : CarlaSimulator * result unit :=
  let c := {| host := host; port := port; client_timeout := 10 |} in
  if reachable
  then ({| client := Some c; world := Some world_handle; vehicle := vehicle s;
           sensors := sensors s; sensor_data := sensor_data s |}, Ok tt)
  else ({| client := Some c; world := world s; vehicle := vehicle s;
           sensors := sensors s; sensor_data := sensor_data s |},
        Raise (RuntimeError "time-out while waiting for the simulator")).

(** The [transform] argument of [spawn_vehicle]: a dict of numbers, a
    [carla.Transform], or anything else. *)
Inductive TransformArg : Type :=
| TDict (d : list (string * Q))
| TTransform (t : Transform)
| TOther.

(** Lines 65-79: the requested transform as a [carla.Transform]. *)
Definition as_transform (a : TransformArg) : result Transform :=
  match a with
  | TDict d =>
      let location := mk_Location (Dict.get d "x" 0%Q) (Dict.get d "y" 0%Q)
                                  (Dict.get d "z" 0%Q) in
      let rotation := mk_Rotation (Dict.get d "pitch" 0%Q) (Dict.get d "yaw" 0%Q)
                                  (Dict.get d "roll" 0%Q) in
      Ok (mk_Transform location rotation)
  | TTransform t => Ok t
  | TOther =>
      Raise (ValueError
               "Transform must be either a dictionary or carla.Transform object")
  end.

(** Lines 82-85: the spawn point, lifted by 0.2 units. *)
Definition spawn_point (transform : Transform) : Transform :=
  mk_Transform
    (mk_Location (loc_x (location transform))
                 (loc_y (location transform))
                 (loc_z (location transform) + 0.2)%Q)
    (rotation transform).

Definition with_vehicle (s : CarlaSimulator) (v : option ActorId)
  : CarlaSimulator :=
  {| client := client s; world := world s; vehicle := v;
     sensors := sensors s; sensor_data := sensor_data s |}.

(** [spawn_vehicle(model, transform, rolename)]. *)
Definition spawn_vehicle (w : World) (s : CarlaSimulator) (model : string)
  (transform : TransformArg) (rolename : string)
  : result (ActorId * World * CarlaSimulator) :=
  match world s with
  | None => Raise (RuntimeError "Cannot spawn vehicle: World is not connected")
  | Some _ =>
      match find w model with
      | None =>
          Raise (ValueError ("Vehicle model '" ++ model ++ "' not found")%string)
      | Some blueprint =>
          let blueprint := set_attribute blueprint "role_name" (AttrStr rolename) in
          transform <- as_transform transform ;;
          let spawn_point := spawn_point transform in
          (* the [try] block and its [except Exception as e] *)
          let attempt : result (ActorId * World * CarlaSimulator) :=
            match try_spawn_actor w blueprint spawn_point None with
            | (None, _) =>
                Raise (RuntimeError
                  "Failed to spawn vehicle: Spawn failed because of collision at spawn position")
            | (Some vehicle, w') => Ok (vehicle, w', with_vehicle s (Some vehicle))
            end in
          match attempt with
          | Ok r => Ok r
          | Raise e =>
              Raise (RuntimeError ("Failed to spawn vehicle: " ++ str_exn e)%string)
          end
      end
  end.

Definition with_sensor (s : CarlaSimulator) (name : string) (a : ActorId)
  : CarlaSimulator :=
  {| client := client s; world := world s; vehicle := vehicle s;
     sensors := Dict.set (sensors s) name a; sensor_data := sensor_data s |}.

(** The common tail of [add_rgb_camera] and [add_lidar]: spawn the
    sensor attached to the vehicle, store it by name, start listening. *)
Definition attach (w : World) (s : CarlaSimulator) (name : string)
  (parent : ActorId) (blueprint : option Blueprint)
  (configure : Blueprint -> Blueprint) (position rotation : Q * Q * Q)
  : result (World * CarlaSimulator) :=
  match blueprint with
  | None =>
      Raise (AttributeError "'NoneType' object has no attribute 'set_attribute'")
  | Some blueprint =>
      let blueprint := configure blueprint in
      let '(x, y, z) := position in
      let '(p, yw, r) := rotation in
      let transform := mk_Transform (mk_Location x y z) (mk_Rotation p yw r) in
      '(id, w) <- spawn_actor w blueprint transform (Some parent) ;;
      Ok (listen w id, with_sensor s name id)
  end.

(** [add_rgb_camera(name, position, rotation, fov)]. *)
Definition add_rgb_camera (w : World) (s : CarlaSimulator) (name : string)
  (position rotation : Q * Q * Q) (fov : Q) : result (World * CarlaSimulator) :=
  match vehicle s with
  | None => Raise (RuntimeError "No vehicle spawned")
  | Some v =>
      attach w s name v (find w "sensor.camera.rgb")
        (fun bp =>
           set_attribute
             (set_attribute (set_attribute bp "image_size_x" (AttrStr "960"))
                            "image_size_y" (AttrStr "480"))
             "fov" (AttrNum fov))
        position rotation
  end.

(** [add_lidar(name, position, rotation, channels, range)]. *)
Definition add_lidar (w : World) (s : CarlaSimulator) (name : string)
  (position rotation : Q * Q * Q) (channels : Z) (range : Q)
  : result (World * CarlaSimulator) :=
  match vehicle s with
  | None => Raise (RuntimeError "No vehicle spawned")
  | Some v =>
      attach w s name v (find w "sensor.lidar.ray_cast")
        (fun bp =>
           set_attribute (set_attribute bp "channels" (AttrNum (inject_Z channels)))
                         "range" (AttrNum range))
        position rotation
  end.

Definition store (s : CarlaSimulator) (name : string) (f : Sensors.Frame)
  : CarlaSimulator :=
  {| client := client s; world := world s; vehicle := vehicle s;
     sensors := sensors s; sensor_data := Dict.set (sensor_data s) name f |}.

(** [_on_camera_data(name, data)]. *)
Definition on_camera_data (s : CarlaSimulator) (name : string)
  (d : Sensors.SensorData) : result CarlaSimulator :=
  let array := frombuffer_uint8 (Sensors.raw_data d) in
  array <- reshape array [Sensors.height d; Sensors.width d; 4] ;;
  array <- take_channels 3 array ;;
  Ok (store s name (Sensors.U8Frame array)).

(** [_on_lidar_data(name, data)]. *)
Definition on_lidar_data (s : CarlaSimulator) (name : string)
  (d : Sensors.SensorData) : result CarlaSimulator :=
  array <- frombuffer_f4 (Sensors.raw_data d) ;;
  array <- reshape array [hd 0 (shape array) / 4; 4] ;;
  Ok (store s name (Sensors.F32Frame array)).

(** [get_sensor_data()]. *)
Definition get_sensor_data (s : CarlaSimulator) : list (string * Sensors.Frame) :=
  sensor_data s.

(** [disconnect()]: destroy every sensor, then the vehicle, then reset
    the fields. *)
Definition disconnect (w : World) (s : CarlaSimulator)
  : World * CarlaSimulator :=
  let w := fold_left Carla.destroy (Dict.values (sensors s)) w in
  let w :=
    match vehicle s with
    | Some v => Carla.destroy w v
    | None => w
    end in
  (w, {| client := None; world := None; vehicle := None;
         sensors := []; sensor_data := [] |}).

(** [get_actors()]. *)
Definition get_actors (w : World) (s : CarlaSimulator) : result (list Actor) :=
  match world s with
  | None => Raise (RuntimeError "Not connected to CARLA server")
  | Some _ => Ok (actors w)
  end.

(** The transforms [spawn_vehicle] accepts, and the transform it takes a
    request for. *)
Definition is_valid_transform (a : TransformArg) : bool :=
  match a with TOther => false | _ => true end.

Definition requested (a : TransformArg) : Transform :=
  match as_transform a with
  | Ok t => t
  | Raise _ => mk_Transform (mk_Location 0 0 0) (mk_Rotation 0 0 0)
  end.

(** The attributes [add_rgb_camera] sets, in the order it sets them. *)
Definition camera_attributes (fov : Q) : list (string * AttrValue) :=
  [("image_size_x", AttrStr "960"); ("image_size_y", AttrStr "480");
   ("fov", AttrNum fov)].

(** The pose a sensor is attached at, from the two tuples. *)
Definition pose (position rotation : Q * Q * Q) : Transform :=
  mk_Transform
    (mk_Location (fst (fst position)) (snd (fst position)) (snd position))
    (mk_Rotation (fst (fst rotation)) (snd (fst rotation)) (snd rotation)).

(** What a facade callback does with the outcome of a decode step. *)
Definition stores_or_raises (k : Sensors.SensorKind) (s : CarlaSimulator)
  (name : string) (d : Sensors.SensorData) (r : result CarlaSimulator) : Prop :=
  match r with
  | Ok s' =>
      Sensors.well_sized k d = true /\
      (exists f,
         Sensors.decode k d = Ok f /\
         Dict.lookup (sensor_data s') name = Some f) /\
      (forall other, other <> name ->
         Dict.lookup (sensor_data s') other = Dict.lookup (sensor_data s) other) /\
      sensors s' = sensors s /\ vehicle s' = vehicle s /\
      client s' = client s /\ world s' = world s
  | Raise e =>
      Sensors.well_sized k d = false /\ exists msg, e = ValueError msg
  end.

End Simulator.

(* ================================================================== *)
(** ** settings.py: layered configuration *)

Module Settings.

#[local] Set Warnings "-register-all".

(** What [yaml.safe_load] yields and the defaults are made of.  Dict keys
    are strings, as in the defaults and in every documented setting. *)
Inductive value : Type :=
| VNone
| VBool (b : bool)
| VInt (z : Z)
| VFloat (q : Q)
| VStr (s : string)
| VList (l : list value)
| VDict (items : list (string * value)).

Definition is_dict (v : value) : bool :=
  match v with VDict _ => true | _ => false end.

(** The values that are neither a dict nor a list. *)
Definition is_scalar (v : value) : bool :=
  match v with VDict _ | VList _ => false | _ => true end.

(** [d.get(k, default)], which only a dict has. *)
Definition py_get (d : value) (k : string) (default : value) : result value :=
  match d with
  | VDict items => Ok (Dict.get items k default)
  | _ => Raise (AttributeError "object has no attribute 'get'")
  end.

(** [d[k] = v] with a string key. *)
Definition py_setitem (d : value) (k : string) (v : value) : result value :=
  match d with
  | VDict items => Ok (VDict (Dict.set items k v))
  | VList _ => Raise (TypeError "list indices must be integers or slices, not str")
  | _ => Raise (TypeError "object does not support item assignment")
  end.

(** [_update_dict(d, u)].  The source updates [d] in place and returns
    it; here the updated [d] is the result. *)
Fixpoint update_dict (d u : value) {struct u} : result value :=
  match u with
  | VDict items =>
      (fix loop (d : value) (items : list (string * value)) {struct items}
         : result value :=
         match items with
         | [] => Ok d
         | (k, v) :: rest =>
             match v with
             | VDict _ =>
                 sub <- py_get d k (VDict []) ;;
                 r <- update_dict sub v ;;
                 d <- py_setitem d k r ;;
                 loop d rest
             | _ =>
                 d <- py_setitem d k v ;;
                 loop d rest
             end
         end) d items
  | _ => Raise (AttributeError "object has no attribute 'items'")
  end.

(** The loop of [_update_dict] over the remaining items of [u]. *)
Fixpoint update_items (d : value) (items : list (string * value))
  : result value :=
  match items with
  | [] => Ok d
  | (k, v) :: rest =>
      match v with
      | VDict _ =>
          sub <- py_get d k (VDict []) ;;
          r <- update_dict sub v ;;
          d <- py_setitem d k r ;;
          update_items d rest
      | _ =>
          d <- py_setitem d k v ;;
          update_items d rest
      end
  end.

Record Settings : Type := mk_Settings {
  config_path : option string;
  settings : value
}.

(** [_load_default_settings()]. *)
Definition load_default_settings : value :=
  VDict [
    ("carla", VDict [
       ("host", VStr "localhost");
       ("port", VInt 2000);
       ("timeout", VFloat 10);
       ("vehicle_type", VStr "tesla.model3") ]);
    ("sensors", VDict [
       ("rgb_camera", VDict [
          ("location", VList [VFloat 0; VFloat 0; VFloat 2]);
          ("rotation", VList [VFloat 0; VFloat 0; VFloat 0]);
          ("fov", VFloat 90) ]);
       ("lidar", VDict [
          ("location", VList [VFloat 0; VFloat 0; VFloat 2.5]);
          ("rotation", VList [VFloat 0; VFloat 0; VFloat 0]);
          ("channels", VInt 32);
          ("range", VFloat 50) ]) ]);
    ("model", VDict [
       ("type", VStr "transfuser");
       ("weights_path", VStr "model_ckpt/model.ckpt");
       ("input_size", VList [VInt 224; VInt 224]);
       ("batch_size", VInt 1) ]);
    ("visualization", VDict [
       ("enabled", VBool true);
       ("save_video", VBool false);
       ("output_dir", VStr "results") ])
  ].

(** [load_config(config_path)], given what [yaml.safe_load] read from the
    file. *)
Definition load_config (s : Settings) (user_settings : value)
  : result Settings :=
  d <- update_dict (settings s) user_settings ;;
  Ok {| config_path := config_path s; settings := d |}.

(** [__init__(config_path)]; [file] is the parsed content of the file at
    [config_path], read when the path is given and not empty. *)
Definition init (path : option string) (file : value) : result Settings :=
  let s := {| config_path := path; settings := load_default_settings |} in
  match path with
  | Some (String _ _) => load_config s file
  | _ => Ok s
  end.

(** The value under a path of keys. *)
Fixpoint at_path (v : value) (path : list string) : option value :=
  match path with
  | [] => Some v
  | k :: path' =>
      match v with
      | VDict items =>
          match Dict.lookup items k with
          | Some v' => at_path v' path'
          | None => None
          end
      | _ => None
      end
  end.

(** [key.split('.')]: the pieces between the dots; there is always at
    least one piece. *)
Fixpoint split_dot (key : string) : list string :=
  match key with
  | EmptyString => [EmptyString]
  | String c rest =>
      if Ascii.eqb c "."
      then EmptyString :: split_dot rest
      else match split_dot rest with
           | piece :: pieces => String c piece :: pieces
           | [] => [String c EmptyString]
           end
  end.

(** ['.'.join(pieces)]. *)
Fixpoint join_dot (pieces : list string) : string :=
  match pieces with
  | [] => EmptyString
  | [piece] => piece
  | piece :: pieces' => (piece ++ String "." (join_dot pieces'))%string
  end.

Fixpoint no_dot (piece : string) : bool :=
  match piece with
  | EmptyString => true
  | String c rest => negb (Ascii.eqb c ".") && no_dot rest
  end.

(** The loop of [get]: [value.get(k)] while [value] is a dict, [default]
    as soon as it is not; at the end, [default] for [None]. *)
Fixpoint get_loop (v : value) (keys : list string) (default : value) : value :=
  match keys with
  | [] => match v with VNone => default | _ => v end
  | k :: keys' =>
      match v with
      | VDict items =>
          get_loop (match Dict.lookup items k with
                    | Some x => x
                    | None => VNone
                    end) keys' default
      | _ => default
      end
  end.

(** [get(key, default)]. *)
Definition get (s : Settings) (key : string) (default : value) : value :=
  get_loop (settings s) (split_dot key) default.

(** The dicts met along a path have no key twice (as every Python dict). *)
Fixpoint distinct_along (v : value) (path : list string) : Prop :=
  match v with
  | VDict items =>
      NoDup (map fst items) /\
      match path with
      | [] => True
      | k :: path' =>
          match Dict.lookup items k with
          | Some v' => distinct_along v' path'
          | None => True
          end
      end
  | _ => True
  end.

(** No dict anywhere inside has a key twice. *)
Fixpoint distinct_keys (v : value) : Prop :=
  match v with
  | VDict items =>
      NoDup (map fst items) /\
      (fix all (items : list (string * value)) : Prop :=
         match items with
         | [] => True
         | (_, x) :: items' => distinct_keys x /\ all items'
         end) items
  | _ => True
  end.

End Settings.

(* ================================================================== *)
(** ** renderer.py: overlays, video and stills *)

Module Renderer.

(** [f"{n:06d}"] for a count [n]. *)
Definition digit (n : nat) : ascii := ascii_of_nat (48 + n).

Fixpoint decimal (fuel n : nat) (acc : string) : string :=
  match fuel with
  | 0 => acc
  | S fuel' =>
      let acc' := String (digit (n mod 10)) acc in
      if n / 10 =? 0 then acc' else decimal fuel' (n / 10) acc'
  end.

Definition str_of_nat (n : nat) : string := decimal (S n) n EmptyString.

Fixpoint zeros (k : nat) : string :=
  match k with
  | 0 => EmptyString
  | S k' => String "0" (zeros k')
  end.

Definition format_06d (n : nat) : string :=
  let s := str_of_nat n in
  (zeros (6 - String.length s) ++ s)%string.

(** [output_dir / filename] as a string; an absolute [filename] stands
    alone. *)
Definition path_join (dir filename : string) : string :=
  match filename with
  | String "/" _ => filename
  | _ => (dir ++ "/" ++ filename)%string
  end.

Section WithImages.

(** Images and the OpenCV calls that make or change them. *)
Variable Image : Type.
Variable cvtColor_RGB2BGR : Image -> Image.
Variable draw_control_info : Image -> Q -> Q -> Image.
Variable draw_debug_info : Image -> list (string * string) -> Image.

Record VideoWriter : Type := mk_VideoWriter {
  vw_path : string;
  vw_fps : nat;
  vw_size : nat * nat;
  vw_frames : list Image
}.

Record Renderer : Type := mk_Renderer {
  output_dir : string;
  save_video : bool;
  fps : nat;
  video_writer : option VideoWriter;
  frame_count : nat
}.

(** The files written so far, by path. *)
Definition Disk : Type := list (string * Image).

(** [__init__(output_dir, save_video, fps)]. *)
Definition init (output_dir : string) (save_video : bool) (fps : nat)
  : Renderer :=
  {| output_dir := output_dir; save_video := save_video; fps := fps;
     video_writer := None; frame_count := 0 |}.

(** [setup_video_writer(width, height, filename)]. *)
Definition setup_video_writer (r : Renderer) (width height : nat)
  (filename : string) : Renderer :=
  if negb (save_video r) then r
  else
    {| output_dir := output_dir r; save_video := save_video r; fps := fps r;
       video_writer :=
         Some {| vw_path := path_join (output_dir r) filename;
                 vw_fps := fps r; vw_size := (width, height);
                 vw_frames := [] |};
       frame_count := frame_count r |}.

(** [render_frame(camera_image, model_output, debug_info)]. *)
Definition render_frame (r : Renderer) (camera_image : Image)
  (model_output : option (Q * Q)) (debug_info : option (list (string * string)))
  : Renderer * Image :=
  let frame := cvtColor_RGB2BGR camera_image in
  let frame :=
    match model_output with
    | Some (steering, throttle) => draw_control_info frame steering throttle
    | None => frame
    end in
  let frame :=
    match debug_info with
    | Some (kv :: info) => draw_debug_info frame (kv :: info)
    | _ => frame
    end in
  match save_video r, video_writer r with
  | true, Some vw =>
      ({| output_dir := output_dir r; save_video := save_video r; fps := fps r;
          video_writer :=
            Some {| vw_path := vw_path vw; vw_fps := vw_fps vw;
                    vw_size := vw_size vw;
                    vw_frames := vw_frames vw ++ [frame] |};
          frame_count := frame_count r + 1 |}, frame)
  | _, _ => (r, frame)
  end.

(** The name [save_frame] makes up when it gets none. *)
Definition auto_name (r : Renderer) : string :=
  ("frame_" ++ format_06d (frame_count r) ++ ".jpg")%string.

(** [save_frame(frame, filename)]: [cv2.imwrite] replaces a file that is
    already there. *)
Definition save_frame (r : Renderer) (disk : Disk) (frame : Image)
  (filename : option string) : Disk :=
  let filename :=
    match filename with
    | Some name => name
    | None => auto_name r
    end in
  Dict.set disk (path_join (output_dir r) filename) frame.

(** [cleanup()]. *)
Definition cleanup (r : Renderer) : Renderer :=
  match video_writer r with
  | Some _ =>
      {| output_dir := output_dir r; save_video := save_video r; fps := fps r;
         video_writer := None; frame_count := frame_count r |}
  | None => r
  end.

(** The calls a client can make on a renderer, and their effect on the
    renderer and the disk. *)
Inductive Call : Type :=
| SetupVideoWriter (width height : nat) (filename : string)
| RenderFrame (camera_image : Image) (model_output : option (Q * Q))
              (debug_info : option (list (string * string)))
| SaveFrame (frame : Image) (filename : option string)
| Cleanup.

Definition exec (s : Renderer * Disk) (c : Call) : Renderer * Disk :=
  let '(r, disk) := s in
  match c with
  | SetupVideoWriter w h name => (setup_video_writer r w h name, disk)
  | RenderFrame img mo dbg => (fst (render_frame r img mo dbg), disk)
  | SaveFrame frame name => (r, save_frame r disk frame name)
  | Cleanup => (cleanup r, disk)
  end.

Definition exec_all (s : Renderer * Disk) (cs : list Call) : Renderer * Disk :=
  fold_left exec cs s.

Definition is_setup (c : Call) : bool :=
  match c with SetupVideoWriter _ _ _ => true | _ => false end.

(** A call of [render_frame] that finds video saving enabled and a
    writer in place. *)
Definition writes_video (r : Renderer) (c : Call) : bool :=
  match c, video_writer r with
  | RenderFrame _ _ _, Some _ => save_video r
  | _, _ => false
  end.

(** The frame of the last [save_frame] call without a name, if any. *)
Fixpoint last_unnamed (cs : list Call) (acc : option Image) : option Image :=
  match cs with
  | [] => acc
  | SaveFrame frame None :: cs' => last_unnamed cs' (Some frame)
  | _ :: cs' => last_unnamed cs' acc
  end.

Definition unnamed_only (c : Call) : bool :=
  match c with SaveFrame _ (Some _) => false | _ => true end.

(** A renderer that saves no video, or has no writer yet and is not given
    one by the calls to come. *)
Definition no_video (r : Renderer) (calls : list Call) : Prop :=
  video_writer r = None /\
  (save_video r = false \/ forallb (fun c => negb (is_setup c)) calls = true).

End WithImages.

(** The number a string of decimal digits stands for. *)
Definition digit_value (c : ascii) : nat := nat_of_ascii c - 48.

Fixpoint parse_decimal_from (acc : nat) (s : string) : nat :=
  match s with
  | EmptyString => acc
  | String c rest => parse_decimal_from (10 * acc + digit_value c) rest
  end.

Definition parse_decimal (s : string) : nat := parse_decimal_from 0 s.

Section Video.

Variable Image : Type.
Variable cvtColor_RGB2BGR : Image -> Image.
Variable draw_control_info : Image -> Q -> Q -> Image.
Variable draw_debug_info : Image -> list (string * string) -> Image.

(** The frames [render_frame] hands back to its callers in the course of
    a run. *)
Fixpoint returned (s : Renderer Image * Disk Image) (cs : list (Call Image))
  : list Image :=
  match cs with
  | [] => []
  | c :: cs' =>
      match c with
      | RenderFrame img mo dbg =>
          [snd (render_frame cvtColor_RGB2BGR draw_control_info
                             draw_debug_info (fst s) img mo dbg)]
      | _ => []
      end
      ++ returned (exec cvtColor_RGB2BGR draw_control_info draw_debug_info s c)
                  cs'
  end.

(** Calls that neither set a writer up nor release it. *)
Definition keeps_writer (c : Call Image) : bool :=
  match c with
  | RenderFrame _ _ _ | SaveFrame _ _ => true
  | _ => false
  end.

Definition is_render (c : Call Image) : bool :=
  match c with RenderFrame _ _ _ => true | _ => false end.

(** The frames the current writer holds. *)
Definition written (r : Renderer Image) : list Image :=
  match video_writer r with
  | Some vw => vw_frames vw
  | None => []
  end.

End Video.

End Renderer.

(* ================================================================== *)
(** ** renderer.py: where the overlays go *)

Module Overlay.

(** Python's [int()] of a number: rounding towards zero.  The float
    arguments are read as exact rationals, without the rounding of binary
    floating point. *)
Definition int_of (q : Q) : Z := Z.quot (Qnum q) (Zpos (Qden q)).

Definition Color : Type := (Z * Z * Z)%type.
Definition black : Color := (0, 0, 0)%Z.
Definition green : Color := (0, 255, 0)%Z.
Definition white : Color := (255, 255, 255)%Z.

(** The OpenCV calls of the two drawing methods, with their coordinates;
    a thickness of -1 fills the rectangle. *)
Inductive Shape : Type :=
| Rectangle (x1 y1 x2 y2 : Z) (color : Color) (thickness : Z)
| Line (x1 y1 x2 y2 : Z) (color : Color) (thickness : Z)
| PutText (text : string) (x y : Z) (color : Color).

(** [_draw_control_info(frame, steering, throttle)] on a frame [width]
    wide and [height] high: the shapes it draws, in order. *)
Definition draw_control_info (width height : Z) (steering throttle : Q)
  : list Shape :=
  let bar_width := 200%Z in
  let bar_height := 20%Z in
  let x := (width - bar_width - 20)%Z in
  let y := (height - 60)%Z in
  let steering_pos :=
    int_of (inject_Z x + (inject_Z bar_width / 2) * (1 + steering))%Q in
  let y' := (y + 30)%Z in
  let throttle_width := int_of (inject_Z bar_width * (throttle + 1) / 2)%Q in
  [ Rectangle x y (x + bar_width) (y + bar_height) black (-1);
    Line steering_pos y steering_pos (y + bar_height) green 2;
    Rectangle x y' (x + bar_width) (y' + bar_height) black (-1);
    Rectangle x y' (x + throttle_width) (y' + bar_height) green (-1) ].

(** [_draw_debug_info(frame, debug_info)]: one line of text per entry,
    from [y] on, 20 pixels apart; the values come as their [str()]. *)
Fixpoint debug_lines (y : Z) (debug_info : list (string * string))
  : list Shape :=
  match debug_info with
  | [] => []
  | (key, value) :: rest =>
      PutText (key ++ ": " ++ value)%string 10 y white
      :: debug_lines (y + 20) rest
  end.

Definition draw_debug_info (debug_info : list (string * string)) : list Shape :=
  debug_lines 30 debug_info.

End Overlay.

(* ================================================================== *)
(** ** Concrete inputs used by the examples below *)

Module Samples.

Import Carla Sensors.

(** A simulator that knows the blueprints the sources ask for and never
    reports a collision. *)
Definition open_world : World :=
  {| library := ["sensor.camera.rgb"; "sensor.lidar.ray_cast";
                 "sensor.camera.semantic_segmentation"; "sensor.camera.depth";
                 "vehicle.tesla.model3"];
     blocked := fun _ _ _ => false;
     actors := [] |}.

(** The same simulator with every place occupied. *)
Definition crowded_world : World :=
  {| library := library open_world;
     blocked := fun _ _ _ => true;
     actors := [] |}.

Definition runtime0 : Runtime := {| world := open_world; threads := [] |}.

Definition roof_mount : SensorConfig :=
  {| cfg_location := (0, 0, 2)%Q; cfg_rotation := (0, 0, 0)%Q;
     attachment := None |}.

Definition camera0 : BaseSensor := init (RGBCamera 90) roof_mount.

(** Two one-pixel BGRA images and what they decode to. *)
Definition image1 : SensorData :=
  {| raw_data := [x01; x02; x03; x04]; height := 1; width := 1 |}.
Definition image2 : SensorData :=
  {| raw_data := [x05; x06; x07; x08]; height := 1; width := 1 |}.

Definition frame1 : Frame :=
  U8Frame {| shape := [1; 1; 3]; data := [x01; x02; x03] |}.
Definition frame2 : Frame :=
  U8Frame {| shape := [1; 1; 3]; data := [x05; x06; x07] |}.

(** A 2x1 image and a point cloud of one point. *)
Definition image3 : list byte := [x01; x02; x03; x04; x05; x06; x07; x08].
Definition cloud1 : list byte :=
  [x00; x00; x80; x3f; x00; x00; x00; x40;
   x00; x00; x40; x40; x00; x00; x80; x3f].

(** The merge example: defaults [{a: {x: 1, y: 2}}], override
    [{a: {y: 3, z: 4}}], expected result [{a: {x: 1, y: 3, z: 4}}]. *)
Definition defaults_a : Settings.value :=
  Settings.VDict
    [("a", Settings.VDict [("x", Settings.VInt 1); ("y", Settings.VInt 2)])].
Definition override_a : Settings.value :=
  Settings.VDict
    [("a", Settings.VDict [("y", Settings.VInt 3); ("z", Settings.VInt 4)])].
Definition merged_a : Settings.value :=
  Settings.VDict
    [("a", Settings.VDict [("x", Settings.VInt 1); ("y", Settings.VInt 3);
                           ("z", Settings.VInt 4)])].

(** Overrides that put a dict where the defaults have the number 2000:
    [carla: {port: {}}] and [carla: {port: {number: 2001}}]. *)
Definition port_empty_dict : Settings.value :=
  Settings.VDict [("carla", Settings.VDict [("port", Settings.VDict [])])].
Definition port_dict : Settings.value :=
  Settings.VDict
    [("carla", Settings.VDict
                 [("port", Settings.VDict [("number", Settings.VInt 2001)])])].

(** A facade after [connect()]. *)
Definition connected : Simulator.CarlaSimulator :=
  fst (Simulator.connect true Simulator.init "localhost" 2000).

(** The open world and the connected facade after a Tesla was spawned at
    the origin: the vehicle is actor 0. *)
Definition city : World :=
  match Simulator.spawn_vehicle open_world connected "vehicle.tesla.model3"
                                (Simulator.TDict []) "hero" with
  | Ok (_, w, _) => w
  | Raise _ => open_world
  end.
Definition driving : Simulator.CarlaSimulator :=
  match Simulator.spawn_vehicle open_world connected "vehicle.tesla.model3"
                                (Simulator.TDict []) "hero" with
  | Ok (_, _, s) => s
  | Raise _ => connected
  end.

End Samples.

(* ================================================================== *)
(** * Statements *)

(** ** Facts about the NumPy operations *)

Module NumpyFacts.

Lemma reshape_ok {A} (a : ndarray A) (s : list nat) :
  prod_shape s = List.length (data a) ->
  reshape a s = Ok {| shape := s; data := data a |}.
Proof.
  intros Hsize. unfold reshape.
  now rewrite Hsize, Nat.eqb_refl.
Qed.

(** Rows of one length [k], one per index of [seq s n], laid end to end:
    position [p * k + r] is position [r] of row [p]. *)
Lemma nth_error_rows {B} (f : nat -> list B) (k : nat) :
  forall n s p r,
    (forall q, s <= q < s + n -> List.length (f q) = k) ->
    p < n -> r < k ->
    nth_error (flat_map f (seq s n)) (p * k + r) = nth_error (f (s + p)) r.
Proof.
  induction n as [|n IH]; intros s p r Hlen Hp Hr; [lia|].
  cbn [seq flat_map]. rewrite nth_error_app.
  assert (Hs : List.length (f s) = k) by (apply Hlen; lia).
  destruct p as [|p].
  - cbn [Nat.mul Nat.add]. rewrite Hs.
    apply Nat.ltb_lt in Hr. rewrite Hr. now rewrite Nat.add_0_r.
  - rewrite Hs.
    assert (Hge : (S p * k + r <? k) = false) by (apply Nat.ltb_ge; nia).
    rewrite Hge.
    replace (S p * k + r - k) with (p * k + r) by nia.
    rewrite IH; try lia.
    + f_equal. f_equal. lia.
    + intros q Hq. apply Hlen. lia.
Qed.

Lemma length_rows {B} (f : nat -> list B) (k n s : nat) :
  (forall q, s <= q < s + n -> List.length (f q) = k) ->
  List.length (flat_map f (seq s n)) = n * k.
Proof.
  intros Hlen.
  rewrite (@flat_map_constant_length _ _ k), length_seq; [reflexivity|].
  intros q Hq. apply in_seq in Hq. now apply Hlen.
Qed.

Section Slices.
Context {A : Type}.
Variables (h w c : nat) (a : ndarray A).
Hypothesis Hshape : shape a = [h; w; c].
Hypothesis Hsize : List.length (data a) = h * w * c.

Lemma pixel_in_bounds (p : nat) : p < h * w -> p * c + c <= List.length (data a).
Proof. rewrite Hsize. nia. Qed.

(** [a[:, :, :k]] keeps the first [k] channels of every pixel. *)
Lemma take_channels_spec (k : nat) :
  k <= c ->
  exists a',
    take_channels k a = Ok a' /\
    shape a' = [h; w; k] /\
    List.length (data a') = h * w * k /\
    forall i j ch, i < h -> j < w -> ch < k ->
      item3 a' i j ch = nth_error (data a) ((i * w + j) * c + ch).
Proof.
  intros Hk. unfold take_channels. rewrite Hshape.
  rewrite (Nat.min_l k c Hk).
  eexists. split; [reflexivity|]. cbn [shape data].
  assert (Hrow : forall q, 0 <= q < 0 + h * w ->
            List.length (firstn k (skipn (q * c) (data a))) = k).
  { intros q Hq. rewrite length_firstn, length_skipn.
    pose proof (pixel_in_bounds (p := q)). lia. }
  split; [reflexivity|]. split; [now apply length_rows|].
  intros i j ch Hi Hj Hch. unfold item3. cbn [shape data].
  apply Nat.ltb_lt in Hi as Hi', Hj as Hj', Hch as Hch'.
  rewrite Hi', Hj', Hch'. cbn [andb].
  rewrite (nth_error_rows _ (k := k)); try assumption; [|nia].
  rewrite nth_error_firstn, Hch', nth_error_skipn.
  reflexivity.
Qed.

(** [a[:, :, k]] keeps channel [k] of every pixel. *)
Lemma select_channel_spec (k : nat) :
  k < c ->
  exists a',
    select_channel k a = Ok a' /\
    shape a' = [h; w] /\
    List.length (data a') = h * w /\
    forall i j, i < h -> j < w ->
      item2 a' i j = nth_error (data a) ((i * w + j) * c + k).
Proof.
  intros Hk. unfold select_channel. rewrite Hshape.
  apply Nat.ltb_lt in Hk as Hk'. rewrite Hk'.
  eexists. split; [reflexivity|]. cbn [shape data].
  assert (Hrow : forall q, 0 <= q < 0 + h * w ->
            List.length (firstn 1 (skipn (q * c + k) (data a))) = 1).
  { intros q Hq. rewrite length_firstn, length_skipn.
    pose proof (pixel_in_bounds (p := q)). lia. }
  split; [reflexivity|]. split.
  - rewrite (length_rows _ (k := 1)); [lia|assumption].
  - intros i j Hi Hj. unfold item2. cbn [shape data].
    apply Nat.ltb_lt in Hi as Hi', Hj as Hj'.
    rewrite Hi', Hj'. cbn [andb].
    replace (i * w + j) with ((i * w + j) * 1 + 0) at 1 by lia.
    rewrite (nth_error_rows _ (k := 1)); try assumption; [|nia|lia].
    rewrite nth_error_firstn. cbn [Nat.ltb Nat.leb].
    rewrite nth_error_skipn. f_equal. lia.
Qed.

End Slices.

(** [group4] on a buffer of [4 * n] bytes: [n] floats, the [i]-th made of
    bytes [4 * i .. 4 * i + 3]. *)
Lemma length_group4 (n : nat) : forall raw,
  List.length raw = 4 * n -> List.length (group4 raw) = n.
Proof.
  induction n as [|n IH]; intros raw Hlen.
  - destruct raw; [reflexivity|discriminate].
  - destruct raw as [|b0 [|b1 [|b2 [|b3 rest]]]]; cbn in Hlen; try lia.
    cbn [group4 List.length]. f_equal. apply IH. lia.
Qed.

Lemma nth_error_group4 (n : nat) : forall raw i,
  List.length raw = 4 * n -> i < n ->
  exists f,
    nth_error (group4 raw) i = Some f /\
    nth_error raw (4 * i) = Some (f32_b0 f) /\
    nth_error raw (4 * i + 1) = Some (f32_b1 f) /\
    nth_error raw (4 * i + 2) = Some (f32_b2 f) /\
    nth_error raw (4 * i + 3) = Some (f32_b3 f).
Proof.
  induction n as [|n IH]; intros raw i Hlen Hi; [lia|].
  destruct raw as [|b0 [|b1 [|b2 [|b3 rest]]]]; cbn in Hlen; try lia.
  destruct i as [|i].
  - exists (mk_float32 b0 b1 b2 b3). cbn. repeat split; reflexivity.
  - destruct (IH rest i) as (f & Hf & H0 & H1 & H2 & H3); [lia|lia|].
    exists f. cbn [group4 nth_error].
    replace (4 * S i) with (S (S (S (S (4 * i))))) by lia.
    cbn [Nat.add nth_error]. repeat split; assumption.
Qed.

End NumpyFacts.

(** ** Facts about the sensor bridge *)

Module SensorFacts.

Import Carla Sensors NumpyFacts.

(** *** Decoding *)

(** C5: for each sensor kind, a raw buffer of the documented size decodes
    to an array of the documented shape and element type.  An RGB buffer
    of [h * w * 4] bytes gives an [h x w x 3] [uint8] array holding
    channels 0..2 of every pixel (channel 3, alpha, is dropped); a lidar
    buffer of [4 * n] 32-bit floats gives an [n x 4] [float32] array, [n]
    being the number of floats divided by 4, with the floats in buffer
    order; semantic and depth buffers of [h * w * 4] bytes give an
    [h x w] [uint8] array holding channel 0 of every pixel. *)
Theorem decode_documented_shape
  (h w n h' w' : nat) (img cloud : list byte) (fov range : Q) (channels : Z) :
  List.length img = h * w * 4 ->
  List.length cloud = 4 * (4 * n) ->
  (exists a,
      decode (RGBCamera fov) (mk_SensorData img h w) = Ok (U8Frame a) /\
      dtype (U8Frame a) = uint8 /\
      shape a = [h; w; 3] /\
      List.length (data a) = h * w * 3 /\
      forall i j ch, i < h -> j < w -> ch < 3 ->
        item3 a i j ch = nth_error img ((i * w + j) * 4 + ch))
  /\
  (exists a,
      decode (LidarSensor channels range) (mk_SensorData cloud h' w')
        = Ok (F32Frame a) /\
      dtype (F32Frame a) = f4 /\
      shape a = [n; 4] /\
      n = List.length cloud / 4 / 4 /\
      List.length (data a) = n * 4 /\
      forall i j, i < n -> j < 4 ->
        exists f,
          item2 a i j = Some f /\
          nth_error cloud (4 * (i * 4 + j)) = Some (f32_b0 f) /\
          nth_error cloud (4 * (i * 4 + j) + 1) = Some (f32_b1 f) /\
          nth_error cloud (4 * (i * 4 + j) + 2) = Some (f32_b2 f) /\
          nth_error cloud (4 * (i * 4 + j) + 3) = Some (f32_b3 f))
  /\
  (forall k, k = SemanticCamera fov \/ k = DepthCamera fov ->
    exists a,
      decode k (mk_SensorData img h w) = Ok (U8Frame a) /\
      dtype (U8Frame a) = uint8 /\
      shape a = [h; w] /\
      List.length (data a) = h * w /\
      forall i j, i < h -> j < w ->
        item2 a i j = nth_error img ((i * w + j) * 4)).
Proof.
  intros Himg Hcloud.
  assert (Hre : reshape (frombuffer_uint8 img) [h; w; 4]
                = Ok {| shape := [h; w; 4]; data := img |}).
  { apply (reshape_ok (frombuffer_uint8 img)). cbn. lia. }
  split; [|split].
  - destruct (take_channels_spec (h := h) (w := w) (c := 4)
                {| shape := [h; w; 4]; data := img |} eq_refl Himg (k := 3))
      as (a & Ha & Hshape & Hlen & Hitem); [lia|].
    exists a. unfold decode. cbn [raw_data height width].
    rewrite Hre. cbn [bind]. rewrite Ha. cbn [bind].
    repeat split; assumption.
  - assert (Hgl : List.length (group4 cloud) = 4 * n)
      by (now apply length_group4).
    exists {| shape := [n; 4]; data := group4 cloud |}.
    unfold decode, frombuffer_f4. cbn [raw_data].
    assert (Hmod : List.length cloud mod 4 = 0).
    { rewrite Hcloud, Nat.mul_comm. apply Nat.Div0.mod_mul. }
    assert (Hdiv : List.length cloud / 4 = 4 * n).
    { rewrite Hcloud, Nat.mul_comm. now apply Nat.div_mul. }
    rewrite Hmod, Hdiv. cbn [Nat.eqb bind shape hd].
    assert (Hn : 4 * n / 4 = n) by (rewrite Nat.mul_comm; now apply Nat.div_mul).
    rewrite Hn.
    rewrite reshape_ok by (cbn; lia). cbn [bind data shape].
    repeat split; try reflexivity; try lia.
    intros i j Hi Hj.
    destruct (nth_error_group4 (n := 4 * n) cloud (i := i * 4 + j))
      as (f & Hf & H0 & H1 & H2 & H3); [assumption|lia|].
    exists f. unfold item2. cbn [shape data].
    apply Nat.ltb_lt in Hi as Hi', Hj as Hj'. rewrite Hi', Hj'. cbn [andb].
    repeat split; assumption.
  - intros k Hk.
    destruct (select_channel_spec (h := h) (w := w) (c := 4)
                {| shape := [h; w; 4]; data := img |} eq_refl Himg (k := 0))
      as (a & Ha & Hshape & Hlen & Hitem); [lia|].
    exists a.
    assert (Hdec : decode k (mk_SensorData img h w) = Ok (U8Frame a)).
    { destruct Hk as [-> | ->]; unfold decode; cbn [raw_data height width];
        rewrite Hre; cbn [bind]; rewrite Ha; reflexivity. }
    repeat split; try assumption.
    intros i j Hi Hj. rewrite (Hitem i j Hi Hj). cbn [data]. f_equal. lia.
Qed.

(** The documented shapes on a 2x1 image and on a cloud of one point. *)
Lemma decode_documented_shape_witness :
  List.length Samples.image3 = 2 * 1 * 4 /\
  List.length Samples.cloud1 = 4 * (4 * 1) /\
  exists a,
    decode (RGBCamera 90) (mk_SensorData Samples.image3 2 1) = Ok (U8Frame a) /\
    shape a = [2; 1; 3].
Proof.
  split; [reflexivity|]. split; [reflexivity|].
  destruct (@decode_documented_shape 2 1 1 0 0 Samples.image3 Samples.cloud1
              90%Q 50%Q 32%Z eq_refl eq_refl)
    as [(a & Hdec & _ & Hshape & _) _].
  exists a. split; assumption.
Defined.

(** *** Lists updated in place *)

Lemma length_update_nth {A} (f : A -> A) : forall n l,
  List.length (update_nth n f l) = List.length l.
Proof.
  induction n as [|n IH]; intros [|a l]; cbn; try reflexivity.
  now rewrite IH.
Qed.

Lemma nth_error_update_nth {A} (f : A -> A) : forall n l m,
  nth_error (update_nth n f l) m
  = if m =? n then option_map f (nth_error l m) else nth_error l m.
Proof.
  induction n as [|n IH]; intros [|a l] [|m]; cbn; try reflexivity.
  - now destruct (m =? n).
  - apply IH.
Qed.

(** *** Spawning *)

(** What [spawn] does, case by case: it looks at the blueprint library
    and at the collision test, and at nothing the bridge holds. *)
Lemma spawn_outcome (rt : Runtime) (b : BaseSensor) :
  spawn rt b =
  match find (world rt) (blueprint_id (kind b)) with
  | None =>
      Raise (AttributeError "'NoneType' object has no attribute 'set_attribute'")
  | Some bp =>
      if blocked (world rt) (actors (world rt)) (attachment (config b))
                 (config_transform (config b))
      then Raise (RuntimeError "Spawn failed because of collision at spawn position")
      else
        let id := List.length (actors (world rt)) in
        let a := new_actor (configure (kind b) bp) (config_transform (config b))
                           (attachment (config b)) in
        Ok ({| world := listen (with_actors (world rt) (actors (world rt) ++ [a])) id;
               threads := threads rt ++ [AtLoopTest] |},
            {| kind := kind b; config := config b; sensor := Some id;
               queue := queue b;
               thread := Some (List.length (threads rt));
               running := true |})
  end.
Proof.
  unfold spawn, spawn_actor, try_spawn_actor.
  destruct (find (world rt) (blueprint_id (kind b))) as [bp|]; [|reflexivity].
  now destruct (blocked (world rt) (actors (world rt)) (attachment (config b))
                        (config_transform (config b))).
Qed.

Lemma spawn_ignores_bridge_state (rt : Runtime) (b : BaseSensor) :
  raises (spawn rt b) = raises (spawn rt (init (kind b) (config b))).
Proof.
  rewrite !spawn_outcome. cbn [init kind config].
  destruct (find (world rt) (blueprint_id (kind b))); [|reflexivity].
  now destruct (blocked (world rt) (actors (world rt)) (attachment (config b))
                        (config_transform (config b))).
Qed.

Lemma alive_after_spawn (w : World) (a : Actor) :
  is_alive a = true ->
  alive (listen (with_actors w (actors w ++ [a])) (List.length (actors w)))
        (List.length (actors w)) = true.
Proof.
  intros Ha. unfold alive, listen. cbn [actors with_actors].
  rewrite nth_error_update_nth, Nat.eqb_refl.
  rewrite nth_error_app2, Nat.sub_diag by lia. cbn. exact Ha.
Qed.

Lemma alive_older_actor (w : World) (a : Actor) (id : ActorId) :
  id < List.length (actors w) ->
  alive (listen (with_actors w (actors w ++ [a])) (List.length (actors w))) id
  = alive w id.
Proof.
  intros Hid. unfold alive, listen. cbn [actors with_actors].
  rewrite nth_error_update_nth.
  assert (Hne : (id =? List.length (actors w)) = false) by (apply Nat.eqb_neq; lia).
  rewrite Hne. now rewrite nth_error_app1.
Qed.

(** C4, as the code has it: a second [spawn()] on a bridge whose first
    [spawn()] succeeded signals no invalid-state error.  It behaves as on
    a fresh bridge: either the simulator refuses the new actor and that
    construction error propagates, or a second actor and a second consumer
    thread are created and the bridge is rebound to them, the first actor
    staying alive and the first thread staying in its loop. *)
Theorem second_spawn_not_refused (rt rt1 : Runtime) (b b1 : BaseSensor) :
  spawn rt b = Ok (rt1, b1) ->
  raises (spawn rt1 b1) = raises (spawn rt1 (init (kind b1) (config b1)))
  /\
  ((blocked (world rt1) (actors (world rt1)) (attachment (config b1))
            (config_transform (config b1)) = true /\
    spawn rt1 b1
    = Raise (RuntimeError "Spawn failed because of collision at spawn position"))
   \/
   (exists rt2 b2 id1 id2 t1 t2,
      spawn rt1 b1 = Ok (rt2, b2) /\
      sensor b1 = Some id1 /\ sensor b2 = Some id2 /\ id1 <> id2 /\
      thread b1 = Some t1 /\ thread b2 = Some t2 /\ t1 <> t2 /\
      running b2 = true /\
      alive (world rt2) id1 = true /\ alive (world rt2) id2 = true /\
      nth_error (threads rt2) t1 = Some AtLoopTest /\
      nth_error (threads rt2) t2 = Some AtLoopTest)).
Proof.
  intros Hfirst. split; [apply spawn_ignores_bridge_state|].
  rewrite spawn_outcome in Hfirst.
  destruct (find (world rt) (blueprint_id (kind b))) as [bp|] eqn:Hfind;
    [|discriminate].
  destruct (blocked (world rt) (actors (world rt)) (attachment (config b))
                    (config_transform (config b))) eqn:Hfree; [discriminate|].
  injection Hfirst as <- <-.
  rewrite spawn_outcome.
  cbn [world threads kind config sensor thread running].
  assert (Hfind1 : forall l id,
            find (listen (with_actors (world rt) l) id) (blueprint_id (kind b))
            = Some bp) by (intros; exact Hfind).
  rewrite Hfind1.
  set (a1 := new_actor (configure (kind b) bp) (config_transform (config b))
                       (attachment (config b))).
  set (w1 := listen (with_actors (world rt) (actors (world rt) ++ [a1]))
                    (List.length (actors (world rt)))).
  assert (Hlen1 : List.length (actors w1) = S (List.length (actors (world rt)))).
  { unfold w1, listen. cbn [actors with_actors].
    rewrite length_update_nth, length_app. cbn. lia. }
  destruct (blocked w1 (actors w1) (attachment (config b))
                    (config_transform (config b))) eqn:Hfree1.
  - left. split; reflexivity.
  - right. cbn zeta.
    eexists _, _, (List.length (actors (world rt))), (List.length (actors w1)),
            (List.length (threads rt)),
            (List.length (threads rt ++ [AtLoopTest])).
    split; [reflexivity|].
    cbn [sensor thread running world threads].
    repeat split.
    + lia.
    + rewrite length_app. cbn. lia.
    + rewrite alive_older_actor by lia.
      unfold w1. apply alive_after_spawn; reflexivity.
    + apply alive_after_spawn; reflexivity.
    + rewrite nth_error_app1 by (rewrite length_app; cbn; lia).
      rewrite nth_error_app2, Nat.sub_diag by lia. reflexivity.
    + rewrite nth_error_app2, Nat.sub_diag by lia. reflexivity.
Qed.

(** The two spawns on the sample camera. *)
Lemma second_spawn_not_refused_witness :
  exists rt1 b1,
    spawn Samples.runtime0 Samples.camera0 = Ok (rt1, b1) /\
    raises (spawn rt1 b1) = raises (spawn rt1 (init (kind b1) (config b1))).
Proof.
  eexists _, _. split; [reflexivity|].
  refine (proj1 (@second_spawn_not_refused Samples.runtime0 _ Samples.camera0 _ _)).
  reflexivity.
Defined.

(** C4 as stated fails: on the sample camera the second [spawn()] returns
    normally, with the bridge bound to a second actor. *)
Lemma second_spawn_succeeds :
  exists rt1 b1 rt2 b2,
    spawn Samples.runtime0 Samples.camera0 = Ok (rt1, b1) /\
    spawn rt1 b1 = Ok (rt2, b2) /\
    raises (spawn rt1 b1) = false /\
    sensor b1 = Some 0 /\ sensor b2 = Some 1.
Proof.
  do 4 eexists. repeat split; reflexivity.
Qed.

(** *** Teardown *)

(** [destroy()] leaves the actor reference in place, so every further
    call reaches the actor again. *)
Lemma destroy_keeps_sensor (rt : Runtime) (b : BaseSensor) :
  sensor (snd (destroy rt b)) = sensor b /\
  running (snd (destroy rt b)) = false.
Proof.
  unfold destroy. cbn [thread sensor].
  destruct (thread b) as [tid|]; [|now split].
  destruct (nth_error (threads rt) tid) as [t|]; [|now split].
  destruct t; cbn; destruct (running b); now split.
Qed.

Lemma destroy_counts (rt : Runtime) (b : BaseSensor) (id : ActorId) :
  sensor b = Some id ->
  id < List.length (actors (world rt)) ->
  destroy_count (world (fst (destroy rt b))) id
  = S (destroy_count (world rt) id).
Proof.
  intros Hs Hid. unfold destroy. cbn [thread sensor].
  assert (Hw : forall w : World,
             id < List.length (actors w) ->
             destroy_count (Carla.destroy w id) id = S (destroy_count w id)).
  { intros w Hlt. unfold destroy_count, Carla.destroy. cbn [actors with_actors].
    rewrite nth_error_update_nth, Nat.eqb_refl.
    destruct (nth_error (actors w) id) as [a|] eqn:Ha; [reflexivity|].
    apply nth_error_None in Ha. lia. }
  destruct (thread b) as [tid|].
  - destruct (nth_error (threads rt) tid) as [t|].
    + destruct t; cbn; rewrite Hs; cbn; now apply Hw.
    + cbn. rewrite Hs. cbn. now apply Hw.
  - cbn. rewrite Hs. cbn. now apply Hw.
Qed.

(** C1, at the failing input: a spawned camera torn down twice.  After
    the first [destroy()] the bridge still holds its actor reference and
    the actor has been destroyed once; the second [destroy()] goes through
    the same guard and destroys the actor a second time. *)
Theorem destroy_twice_reaches_actor_twice :
  exists rt1 b1,
    spawn Samples.runtime0 Samples.camera0 = Ok (rt1, b1) /\
    sensor b1 = Some 0 /\
    let '(rt2, b2) := destroy rt1 b1 in
    let '(rt3, b3) := destroy rt2 b2 in
    sensor b2 = Some 0 /\ running b2 = false /\
    destroy_count (world rt2) 0 = 1 /\
    sensor b3 = Some 0 /\ running b3 = false /\
    destroy_count (world rt3) 0 = 2.
Proof.
  eexists _, _. split; [reflexivity|]. cbn. repeat split.
Qed.

(** *** Polling *)

Lemma get_data_empty (b : BaseSensor) :
  queue b = [] -> get_data b = (None, b).
Proof. intros Hq. unfold get_data. now rewrite Hq. Qed.

(** [get_data()] hands out the head of the queue: the frame queued
    first. *)
Lemma get_data_oldest (b : BaseSensor) (f : Frame) (q : list Frame) :
  queue b = f :: q -> get_data b = (Some f, with_queue b q).
Proof. intros Hq. unfold get_data. now rewrite Hq. Qed.

(** C2, at the failing input: two different frames are queued on a fresh
    camera, [image1] first and [image2] last.  [get_data()] returns the
    frame of [image1], the oldest one, and not the most recently queued
    frame. *)
Theorem get_data_returns_oldest_frame :
  exists b1 b2,
    sensor_callback Samples.camera0 Samples.image1 = Ok b1 /\
    sensor_callback b1 Samples.image2 = Ok b2 /\
    queue b2 = [Samples.frame1; Samples.frame2] /\
    fst (get_data b2) = Some Samples.frame1 /\
    Samples.frame1 <> Samples.frame2 /\
    fst (get_data Samples.camera0) = None.
Proof.
  eexists _, _. repeat split. discriminate.
Qed.

(** *** Schedules *)

Lemma run_cons (s : State) (e : Event) (es : list Event) :
  run s (e :: es)
  = (fst (run (fst (step s e)) es),
     snd (step s e) ++ snd (run (fst (step s e)) es)).
Proof.
  cbn [run]. destruct (step s e) as [s1 out1].
  cbn [fst snd]. now destruct (run s1 es).
Qed.

Lemma run_app (es1 es2 : list Event) : forall s,
  run s (es1 ++ es2)
  = (fst (run (fst (run s es1)) es2),
     snd (run s es1) ++ snd (run (fst (run s es1)) es2)).
Proof.
  induction es1 as [|e es1 IH]; intros s.
  - cbn. now destruct (run s es2).
  - rewrite <- app_comm_cons, !run_cons, IH. cbn [fst snd].
    now rewrite app_assoc.
Qed.

Lemma frames_of_app (o1 o2 : list (option Frame)) :
  frames_of (o1 ++ o2) = frames_of o1 ++ frames_of o2.
Proof.
  induction o1 as [|[f|] o1 IH]; cbn; [reflexivity| |assumption].
  now rewrite IH.
Qed.

Lemma subseq_nil_l {A} (l : list A) : subseq [] l.
Proof. induction l; constructor; assumption. Qed.

Lemma decode_all_cons (k : SensorKind) (d : SensorData) (ds : list SensorData)
  (fs : list Frame) :
  decode_all k (d :: ds) = Ok fs ->
  exists f fs', decode k d = Ok f /\ decode_all k ds = Ok fs' /\ fs = f :: fs'.
Proof.
  cbn [decode_all]. destruct (decode k d) as [f|]; [|discriminate].
  destruct (decode_all k ds) as [fs'|]; [|discriminate].
  cbn. intros [= <-]. now exists f, fs'.
Qed.

Lemma length_decode_all (k : SensorKind) : forall ds fs,
  decode_all k ds = Ok fs -> List.length fs = List.length ds.
Proof.
  induction ds as [|d ds IH]; intros fs H.
  - now injection H as <-.
  - apply decode_all_cons in H as (f & fs' & _ & Hrest & ->).
    cbn. f_equal. now apply IH.
Qed.

(** Whatever the consumer threads do in between, the frames [get_data]
    hands out are frames that were queued, in the order of their
    arrival. *)
Lemma polled_frames_subseq : forall es rt b fs,
  decode_all (kind b) (deliveries es) = Ok fs ->
  subseq (frames_of (snd (run (rt, b) es))) (queue b ++ fs).
Proof.
  induction es as [|e es IH]; intros rt b fs Hdec.
  - cbn in *. injection Hdec as <-. rewrite app_nil_r.
    apply subseq_nil_l.
  - rewrite run_cons. cbn [snd]. rewrite frames_of_app.
    destruct e as [d|tid|].
    + cbn [deliveries] in Hdec.
      apply decode_all_cons in Hdec as (f & fs' & Hd & Hrest & ->).
      cbn [step]. unfold sensor_callback. rewrite Hd. cbn [bind fst snd app frames_of].
      replace (queue b ++ f :: fs') with ((queue b ++ [f]) ++ fs')
        by (now rewrite <- app_assoc).
      apply (IH rt (with_queue b (queue b ++ [f]))). exact Hrest.
    + cbn [deliveries] in Hdec. cbn [step].
      destruct (nth_error (threads rt) tid) as [t|]; [|now apply IH].
      destruct t; cbn [process_data_step].
      * destruct (running b); cbn [fst snd app frames_of]; now apply IH.
      * cbn [fst snd app frames_of].
        destruct (queue b) as [|f q] eqn:Hq.
        -- specialize (IH {| world := world rt;
                             threads := update_nth tid (fun _ => AtLoopTest)
                                                   (threads rt) |}
                           (with_queue b (tl [])) fs Hdec).
           exact IH.
        -- apply subseq_skip.
           apply (IH {| world := world rt;
                        threads := update_nth tid (fun _ => AtLoopTest)
                                              (threads rt) |}
                     (with_queue b q) fs Hdec).
      * cbn [fst snd app frames_of]. now apply IH.
    + cbn [deliveries] in Hdec. cbn [step]. unfold get_data.
      destruct (queue b) as [|f q] eqn:Hq; cbn [fst snd app frames_of].
      * specialize (IH rt b fs Hdec). now rewrite Hq in IH.
      * apply subseq_take. apply (IH rt (with_queue b q) fs Hdec).
Qed.

Lemma with_queue_same (b : BaseSensor) : with_queue b (queue b) = b.
Proof. now destruct b. Qed.

(** Deliveries alone only append to the queue. *)
Lemma run_deliveries : forall ds rt b fs,
  decode_all (kind b) ds = Ok fs ->
  run (rt, b) (map Deliver ds) = ((rt, with_queue b (queue b ++ fs)), []).
Proof.
  induction ds as [|d ds IH]; intros rt b fs Hdec.
  - injection Hdec as <-. cbn. now rewrite app_nil_r, with_queue_same.
  - apply decode_all_cons in Hdec as (f & fs' & Hd & Hrest & ->).
    cbn [map]. rewrite run_cons. cbn [step]. unfold sensor_callback.
    rewrite Hd. cbn [bind fst snd app].
    rewrite (IH rt (with_queue b (queue b ++ [f])) fs' Hrest).
    cbn [fst snd with_queue kind config sensor queue thread running].
    now rewrite <- app_assoc.
Qed.

(** Polls alone take the queue from its head. *)
Lemma run_polls : forall fs rt b,
  queue b = fs ->
  run (rt, b) (repeat Poll (List.length fs))
  = ((rt, with_queue b []), map Some fs).
Proof.
  induction fs as [|f fs IH]; intros rt b Hq.
  - cbn. now rewrite <- Hq, with_queue_same.
  - cbn [List.length repeat]. rewrite run_cons. cbn [step]. unfold get_data.
    rewrite Hq. cbn [fst snd].
    rewrite (IH rt (with_queue b fs) eq_refl). reflexivity.
Qed.

(** C3, as the code has it: after [spawn()] on a fresh bridge, [N] raw
    frames that decode are injected and [get_data()] is called [N] times.
    If no consumer thread takes a step in between, the calls return the
    [N] decoded frames in arrival order.  Under any interleaving with the
    consumer threads, the frames the calls return are a subsequence, in
    arrival order, of the decoded frames. *)
Theorem polls_after_injection_fifo
  (rt : Runtime) (k : SensorKind) (c : SensorConfig) (s1 : State)
  (ds : list SensorData) (fs : list Frame) :
  spawn rt (init k c) = Ok s1 ->
  decode_all k ds = Ok fs ->
  snd (run s1 (map Deliver ds ++ repeat Poll (List.length ds))) = map Some fs
  /\
  forall es, deliveries es = ds ->
    subseq (frames_of (snd (run s1 es))) fs.
Proof.
  intros Hspawn Hdec.
  rewrite spawn_outcome in Hspawn. cbn [init kind config queue] in Hspawn.
  destruct (find (world rt) (blueprint_id k)) as [bp|]; [|discriminate].
  destruct (blocked (world rt) (actors (world rt)) (attachment c)
                    (config_transform c)); [discriminate|].
  injection Hspawn as <-. split.
  - rewrite run_app, run_deliveries with (fs := fs) by exact Hdec.
    cbn [fst snd app with_queue kind config sensor queue thread running].
    rewrite <- (length_decode_all _ _ Hdec).
    now rewrite run_polls.
  - intros es <-.
    match goal with
    | |- subseq (frames_of (snd (run (?r, ?b) es))) fs =>
        apply (polled_frames_subseq es r b)
    end.
    exact Hdec.
Qed.

(** Two frames through the sample camera. *)
Lemma polls_after_injection_fifo_witness :
  exists s1,
    spawn Samples.runtime0 Samples.camera0 = Ok s1 /\
    decode_all (RGBCamera 90) [Samples.image1; Samples.image2]
    = Ok [Samples.frame1; Samples.frame2] /\
    snd (run s1 [Deliver Samples.image1; Deliver Samples.image2; Poll; Poll])
    = [Some Samples.frame1; Some Samples.frame2].
Proof.
  eexists. split; [reflexivity|]. split; [reflexivity|].
  refine (proj1 (@polls_after_injection_fifo
                   Samples.runtime0 (RGBCamera 90) Samples.roof_mount _
                   [Samples.image1; Samples.image2]
                   [Samples.frame1; Samples.frame2] _ _));
    reflexivity.
Defined.

(** C3 as stated fails: after [spawn()] one frame is injected, the
    consumer thread started by [spawn()] passes its loop test and takes
    the frame from the queue, and the one [get_data()] call that follows
    returns [None] instead of the decoded frame. *)
Lemma consumer_takes_injected_frame :
  exists s1,
    spawn Samples.runtime0 Samples.camera0 = Ok s1 /\
    thread (snd s1) = Some 0 /\
    decode (RGBCamera 90) Samples.image1 = Ok Samples.frame1 /\
    snd (run s1 [Deliver Samples.image1; Consumer 0; Consumer 0; Poll]) = [None] /\
    snd (run s1 [Deliver Samples.image1; Consumer 0; Consumer 0; Poll])
    <> [Some Samples.frame1].
Proof.
  eexists. repeat split. discriminate.
Qed.

(** *** What does hold of [get_data] and of a repeated [destroy] *)

(** [get_data()] always returns at once: [None] on an empty queue (a
    fresh bridge has one), which it leaves alone, and otherwise the head
    of the queue, which it removes. *)
Theorem get_data_total (b : BaseSensor) (f : Frame) (q : list Frame)
  (k : SensorKind) (c : SensorConfig) :
  get_data (with_queue b []) = (None, with_queue b []) /\
  get_data (with_queue b (f :: q)) = (Some f, with_queue b q) /\
  get_data (init k c) = (None, init k c).
Proof. repeat split. Qed.

Lemma update_nth_again {A} (x : A) : forall n l,
  update_nth n (fun _ => x) (update_nth n (fun _ => x) l)
  = update_nth n (fun _ => x) l.
Proof.
  induction n as [|n IH]; intros [|a l]; cbn; try reflexivity.
  now rewrite IH.
Qed.

(** [destroy()] on a bridge that was never spawned reaches nothing. *)
Lemma destroy_unspawned (rt : Runtime) (k : SensorKind) (c : SensorConfig) :
  destroy rt (init k c) = (rt, init k c).
Proof. now destruct rt. Qed.

(** X1: a second [destroy()] leaves the bridge and the threads as the
    first one left them: the flag cleared, the actor reference as it was,
    the consumer thread past its loop. *)
Theorem destroy_twice_same_bridge (rt : Runtime) (b : BaseSensor) :
  let s1 := destroy rt b in
  let s2 := destroy (fst s1) (snd s1) in
  snd s2 = snd s1 /\
  threads (fst s2) = threads (fst s1) /\
  running (snd s1) = false /\
  sensor (snd s1) = sensor b /\
  (forall tid, thread b = Some tid -> tid < List.length (threads rt) ->
     nth_error (threads (fst s1)) tid = Some Exited).
Proof.
  cbn zeta. unfold destroy. cbn [thread].
  destruct (thread b) as [tid|] eqn:Hth.
  - destruct (nth_error (threads rt) tid) as [t|] eqn:Ht.
    + assert (Hafter : forall x,
                nth_error (update_nth tid (fun _ => x) (threads rt)) tid = Some x).
      { intros x. now rewrite nth_error_update_nth, Nat.eqb_refl, Ht. }
      destruct t; cbn; rewrite ?Hth, Hafter; cbn; rewrite ?update_nth_again;
        repeat split; try reflexivity; intros tid' [= <-] _; apply Hafter.
    + cbn. rewrite ?Hth, Ht. cbn. repeat split.
      intros tid' [= <-] Hlt. apply nth_error_None in Ht. lia.
  - cbn. rewrite ?Hth. cbn. repeat split. discriminate.
Qed.

End SensorFacts.

(** ** Facts about dicts *)

Module DictFacts.

Section DictLemmas.
Context {V : Type}.

Lemma lookup_set_same (d : list (string * V)) (k : string) (v : V) :
  Dict.lookup (Dict.set d k v) k = Some v.
Proof.
  induction d as [|[k' v'] d IH]; cbn.
  - now rewrite String.eqb_refl.
  - destruct (String.eqb k k') eqn:E; cbn; rewrite E; [reflexivity|exact IH].
Qed.

Lemma lookup_set_other (d : list (string * V)) (k k0 : string) (v : V) :
  k0 <> k ->
  Dict.lookup (Dict.set d k v) k0 = Dict.lookup d k0.
Proof.
  intros Hne. apply String.eqb_neq in Hne as Hneb.
  induction d as [|[k' v'] d IH]; cbn.
  - now rewrite Hneb.
  - destruct (String.eqb k k') eqn:E; cbn.
    + apply String.eqb_eq in E. subst k'. now rewrite Hneb.
    + now rewrite IH.
Qed.

Lemma lookup_absent (d : list (string * V)) (k : string) :
  ~ In k (map fst d) -> Dict.lookup d k = None.
Proof.
  induction d as [|[k' v'] d IH]; cbn; [reflexivity|].
  intros Hnot. destruct (String.eqb_spec k k') as [->|Hne].
  - exfalso. apply Hnot. now left.
  - apply IH. intros Hin. apply Hnot. now right.
Qed.

End DictLemmas.

End DictFacts.

(** ** Facts about the simulator facade *)

Module SimulatorFacts.

Import Carla Simulator.

(** The spawn point keeps the requested place and heading and sits 0.2
    above the requested height. *)
Lemma spawn_point_lift (t : Transform) :
  loc_x (location (spawn_point t)) = loc_x (location t) /\
  loc_y (location (spawn_point t)) = loc_y (location t) /\
  rotation (spawn_point t) = rotation t /\
  (loc_z (location (spawn_point t)) - loc_z (location t) == 0.2)%Q.
Proof.
  unfold spawn_point. cbn [location rotation loc_x loc_y loc_z].
  repeat split. ring.
Qed.



(** C7: [disconnect()] on a facade with no sensor and no vehicle returns
    normally, touches no actor, and leaves [client], [world] and
    [vehicle] cleared and both mappings empty, whatever the connection
    and the stored frames were. *)
Theorem disconnect_nothing_spawned
  (w : World) (c : option Client) (h : option WorldHandle)
  (frames : list (string * Sensors.Frame)) :
  disconnect w {| client := c; world := h; vehicle := None;
                  sensors := []; sensor_data := frames |}
  = (w, {| client := None; world := None; vehicle := None;
           sensors := []; sensor_data := [] |}).
Proof. reflexivity. Qed.

(** In general [disconnect()] resets every field. *)
Lemma disconnect_resets (w : World) (s : CarlaSimulator) :
  snd (disconnect w s) = init.
Proof. reflexivity. Qed.

(** X2: the facade keeps one frame per sensor name: a second camera
    frame under the same name replaces the first. *)
Theorem facade_keeps_latest_frame
  (s s1 s2 : CarlaSimulator) (name : string) (d1 d2 : Sensors.SensorData) :
  on_camera_data s name d1 = Ok s1 ->
  on_camera_data s1 name d2 = Ok s2 ->
  exists f2,
    Sensors.decode (Sensors.RGBCamera 90) d2 = Ok f2 /\
    Dict.lookup (get_sensor_data s2) name = Some f2 /\
    List.length (get_sensor_data s2) = List.length (get_sensor_data s1).
Proof.
  unfold on_camera_data, Sensors.decode. intros H1 H2.
  destruct (reshape (frombuffer_uint8 (Sensors.raw_data d1)) _) as [a1|];
    [|discriminate H1].
  cbn [bind] in H1. destruct (take_channels 3 a1) as [a1'|]; [|discriminate H1].
  injection H1 as <-.
  destruct (reshape (frombuffer_uint8 (Sensors.raw_data d2)) _) as [a2|];
    [|discriminate H2].
  cbn [bind] in H2 |- *. destruct (take_channels 3 a2) as [a2'|]; [|discriminate H2].
  injection H2 as <-. cbn [bind].
  exists (Sensors.U8Frame a2'). split; [reflexivity|].
  unfold get_sensor_data, store. cbn [sensor_data].
  split; [apply DictFacts.lookup_set_same|].
  generalize (Sensors.U8Frame a1'), (Sensors.U8Frame a2'), (sensor_data s).
  intros f1 f2 d. clear.
  induction d as [|[k v] d IH]; cbn.
  - now rewrite String.eqb_refl.
  - destruct (String.eqb name k) eqn:E; cbn; rewrite E; cbn; [reflexivity|].
    now rewrite IH.
Qed.

(** Two images for the camera named [front]. *)
Lemma facade_keeps_latest_frame_witness :
  exists s1 s2,
    on_camera_data Simulator.init "front" Samples.image1 = Ok s1 /\
    on_camera_data s1 "front" Samples.image2 = Ok s2 /\
    Dict.lookup (get_sensor_data s2) "front" = Some Samples.frame2.
Proof.
  eexists _, _. split; [reflexivity|]. split; [reflexivity|].
  destruct (@facade_keeps_latest_frame Simulator.init _ _ "front"
              Samples.image1 Samples.image2 eq_refl eq_refl)
    as (f2 & Hdec & Hlook & _).
  rewrite Hlook. f_equal.
  assert (Hf : Ok f2 = Ok Samples.frame2) by (rewrite <- Hdec; reflexivity).
  now injection Hf.
Defined.

End SimulatorFacts.

(** ** Facts about the settings merge *)

Module SettingsFacts.

Import Settings DictFacts.

(** The inner loop of [update_dict] is [update_items]. *)
Lemma update_dict_items (items : list (string * value)) : forall d,
  update_dict d (VDict items) = update_items d items.
Proof.
  induction items as [|[k v] rest IH]; intros d; [reflexivity|].
  cbn [update_items]. cbn [update_dict] in IH |- *.
  destruct v;
    try (destruct (py_setitem d k _); cbn [bind]; [apply IH|reflexivity]).
  destruct (py_get d k (VDict [])) as [sub|]; cbn [bind]; [|reflexivity].
  match goal with
  | |- bind ?c _ = bind ?c' _ => change c with c'; destruct c'
  end; cbn [bind]; [|reflexivity].
  destruct (py_setitem d k a); cbn [bind]; [apply IH|reflexivity].
Qed.

(** What a merge that returns has done, key by key: a key the update
    does not mention keeps its value, a key with a dict in the update
    holds the merge of that dict into the old value (or into an empty
    dict), any other key holds the update's value. *)
Lemma update_items_spec : forall uitems ditems r,
  NoDup (map fst uitems) ->
  update_items (VDict ditems) uitems = Ok r ->
  exists ritems,
    r = VDict ritems /\
    forall k,
      match Dict.lookup uitems k with
      | None => Dict.lookup ritems k = Dict.lookup ditems k
      | Some v =>
          if is_dict v
          then exists m,
                 update_dict (Dict.get ditems k (VDict [])) v = Ok m /\
                 Dict.lookup ritems k = Some m
          else Dict.lookup ritems k = Some v
      end.
Proof.
  induction uitems as [|[k1 v1] rest IH]; intros ditems r Hnodup Hrun.
  - cbn in Hrun. injection Hrun as <-. exists ditems. now split.
  - cbn [map fst] in Hnodup. inversion Hnodup as [|? ? Hfresh Hrest]; subst.
    cbn [update_items] in Hrun.
    assert (Hstep : exists x,
              (if is_dict v1
               then update_dict (Dict.get ditems k1 (VDict [])) v1 = Ok x
               else x = v1) /\
              update_items (VDict (Dict.set ditems k1 x)) rest = Ok r).
    { destruct v1; cbn [py_setitem bind is_dict] in Hrun |- *;
        try (eexists; split; [reflexivity|exact Hrun]).
      cbn [py_get bind] in Hrun.
      destruct (update_dict (Dict.get ditems k1 (VDict [])) (VDict items))
        as [m|] eqn:Hm; [|discriminate].
      cbn [bind] in Hrun. now exists m. }
    destruct Hstep as (x & Hx & Hrun').
    destruct (IH _ _ Hrest Hrun') as (ritems & -> & Hkeys).
    exists ritems. split; [reflexivity|].
    intros k. cbn [Dict.lookup].
    destruct (String.eqb_spec k k1) as [->|Hne].
    + specialize (Hkeys k1). rewrite (lookup_absent _ _ Hfresh) in Hkeys.
      rewrite lookup_set_same in Hkeys.
      destruct (is_dict v1); [now exists x|now subst x].
    + specialize (Hkeys k).
      unfold Dict.get in Hkeys. rewrite lookup_set_other in Hkeys by assumption.
      exact Hkeys.
Qed.

(** C8: [_update_dict] lays the user's settings over the defaults.  On
    the example, defaults [{a: {x: 1, y: 2}}] and override
    [{a: {y: 3, z: 4}}] give [{a: {x: 1, y: 3, z: 4}}], also through
    [load_config].  In general, when
    the merge of a dict (with distinct keys) into another returns, every
    key the override
    does not mention keeps its value, every key the override maps to a
    dict holds the recursive merge of that dict into the old value (into
    an empty dict if there was none), and every other key of the override
    holds the override's value. *)
Theorem update_dict_merges_recursively :
  update_dict Samples.defaults_a Samples.override_a = Ok Samples.merged_a
  /\
  (forall cp,
     load_config {| config_path := cp; settings := Samples.defaults_a |}
                 Samples.override_a
     = Ok {| config_path := cp; settings := Samples.merged_a |})
  /\
  forall ditems uitems r,
    NoDup (map fst uitems) ->
    update_dict (VDict ditems) (VDict uitems) = Ok r ->
    exists ritems,
      r = VDict ritems /\
      forall k,
        match Dict.lookup uitems k with
        | None => Dict.lookup ritems k = Dict.lookup ditems k
        | Some v =>
            if is_dict v
            then exists m,
                   update_dict (Dict.get ditems k (VDict [])) v = Ok m /\
                   Dict.lookup ritems k = Some m
            else Dict.lookup ritems k = Some v
        end.
Proof.
  split; [reflexivity|]. split; [reflexivity|].
  intros ditems uitems r Hnodup Hrun.
  rewrite update_dict_items in Hrun.
  now apply update_items_spec.
Qed.

(** The general part on the [port] group of the defaults. *)
Lemma update_dict_merges_recursively_witness :
  exists ritems,
    update_dict (VDict [("host", VStr "localhost"); ("port", VInt 2000)])
                (VDict [("port", VInt 2001); ("timeout", VFloat 5)])
    = Ok (VDict ritems) /\
    Dict.lookup ritems "host" = Some (VStr "localhost") /\
    Dict.lookup ritems "port" = Some (VInt 2001).
Proof.
  destruct (proj2 (proj2 update_dict_merges_recursively)
              [("host", VStr "localhost"); ("port", VInt 2000)]
              [("port", VInt 2001); ("timeout", VFloat 5)]
              (VDict [("host", VStr "localhost"); ("port", VInt 2001);
                      ("timeout", VFloat 5)]))
    as (ritems & Hr & Hkeys).
  - repeat constructor; cbn; intuition discriminate.
  - reflexivity.
  - exists ritems. rewrite <- Hr. split; [reflexivity|].
    split; [exact (Hkeys "host")|exact (Hkeys "port")].
Defined.

(** *** A dict laid over a scalar *)

Lemma scalar_rejects_items (s : value) (kv : string * value)
  (rest : list (string * value)) :
  is_scalar s = true ->
  raises (update_dict s (VDict (kv :: rest))) = true.
Proof.
  intros Hs. destruct kv as [k v].
  destruct s; try discriminate Hs; destruct v; reflexivity.
Qed.

(** If the merge of the item under [k] raises, so does the loop that
    reaches it. *)
Lemma update_items_raises_at : forall uitems ditems k d1 u1,
  Dict.lookup uitems k = Some u1 ->
  is_dict u1 = true ->
  Dict.lookup ditems k = Some d1 ->
  raises (update_dict d1 u1) = true ->
  raises (update_items (VDict ditems) uitems) = true.
Proof.
  induction uitems as [|[k' v] rest IH]; intros ditems k d1 u1 Hu Hdict Hd Hraise;
    [discriminate Hu|].
  cbn [Dict.lookup] in Hu. cbn [update_items].
  destruct (String.eqb_spec k k') as [<-|Hne].
  - injection Hu as ->. destruct u1; try discriminate Hdict.
    cbn [py_get bind]. unfold Dict.get. rewrite Hd.
    destruct (update_dict d1 (VDict items)); [discriminate Hraise|reflexivity].
  - assert (Hnext : forall x,
              raises (update_items (VDict (Dict.set ditems k' x)) rest) = true).
    { intros x. apply (IH _ k d1 u1); try assumption.
      now rewrite lookup_set_other. }
    destruct v; cbn [py_setitem py_get bind]; try apply Hnext.
    destruct (update_dict (Dict.get ditems k' (VDict [])) (VDict items));
      cbn [bind]; [apply Hnext|reflexivity].
Qed.

Lemma at_path_dict (v : value) (path : list string) (kv : string * value)
  (rest : list (string * value)) :
  at_path v path = Some (VDict (kv :: rest)) -> is_dict v = true.
Proof.
  destruct path as [|k path]; cbn.
  - now intros [= ->].
  - destruct v; try discriminate. reflexivity.
Qed.

(** C9, as the code has it: if the override holds a non-empty dict at a
    key path where the settings hold a non-dict scalar, [_update_dict]
    raises, and so does [load_config]. *)
Theorem dict_over_scalar_raises
  (path : list string) (d u s : value) (kv : string * value)
  (rest : list (string * value)) :
  at_path d path = Some s ->
  is_scalar s = true ->
  at_path u path = Some (VDict (kv :: rest)) ->
  raises (update_dict d u) = true /\
  forall cp, raises (load_config {| config_path := cp; settings := d |} u) = true.
Proof.
  intros Hd Hs Hu.
  assert (Hraise : raises (update_dict d u) = true).
  { revert d u Hd Hu. induction path as [|k path IH]; intros d u Hd Hu.
    - cbn in Hd, Hu. injection Hd as ->. injection Hu as ->.
      now apply scalar_rejects_items.
    - cbn [at_path] in Hd, Hu.
      destruct d as [| | | | | |ditems]; try discriminate Hd.
      destruct u as [| | | | | |uitems]; try discriminate Hu.
      destruct (Dict.lookup ditems k) as [d1|] eqn:Hd1; [|discriminate Hd].
      destruct (Dict.lookup uitems k) as [u1|] eqn:Hu1; [|discriminate Hu].
      rewrite update_dict_items.
      apply (@update_items_raises_at uitems ditems k d1 u1 Hu1
               (@at_path_dict u1 path kv rest Hu) Hd1).
      now apply IH. }
  split; [exact Hraise|].
  intros cp. unfold load_config. cbn [settings].
  destruct (update_dict d u); [discriminate Hraise|reflexivity].
Qed.

(** The port of the defaults under [carla: {port: {number: 2001}}]. *)
Lemma dict_over_scalar_raises_witness :
  at_path load_default_settings ["carla"; "port"] = Some (VInt 2000) /\
  at_path Samples.port_dict ["carla"; "port"]
  = Some (VDict [("number", VInt 2001)]) /\
  raises (update_dict load_default_settings Samples.port_dict) = true.
Proof.
  split; [reflexivity|]. split; [reflexivity|].
  exact (proj1 (@dict_over_scalar_raises ["carla"; "port"] load_default_settings
                  Samples.port_dict (VInt 2000) ("number", VInt 2001) []
                  eq_refl eq_refl eq_refl)).
Defined.

(** C9 as stated fails: the defaults hold the scalar 2000 at
    [carla.port], the override [carla: {port: {}}] holds a dict there,
    and yet the merge returns, with the settings as they were. *)
Lemma empty_dict_over_scalar_returns :
  at_path load_default_settings ["carla"; "port"] = Some (VInt 2000) /\
  is_scalar (VInt 2000) = true /\
  at_path Samples.port_empty_dict ["carla"; "port"] = Some (VDict []) /\
  update_dict load_default_settings Samples.port_empty_dict
  = Ok load_default_settings /\
  raises (load_config {| config_path := None;
                         settings := load_default_settings |}
                      Samples.port_empty_dict) = false.
Proof. repeat split. Qed.

End SettingsFacts.

(** ** Facts about the renderer *)

Module RendererFacts.

Import Renderer DictFacts.

Section WithImages.

Context {Image : Type}.
Variable cvtColor_RGB2BGR : Image -> Image.
Variable draw_control_info : Image -> Q -> Q -> Image.
Variable draw_debug_info : Image -> list (string * string) -> Image.

Local Abbreviation exec :=
  (exec cvtColor_RGB2BGR draw_control_info draw_debug_info).
Local Abbreviation exec_all :=
  (exec_all cvtColor_RGB2BGR draw_control_info draw_debug_info).

(** The only call that moves the counter is a [render_frame] that finds
    video saving enabled and a writer in place. *)
Lemma frame_count_exec (r : Renderer Image) (disk : Disk Image) (c : Call Image) :
  frame_count (fst (exec (r, disk) c))
  = if writes_video r c then frame_count r + 1 else frame_count r.
Proof.
  destruct c as [width height name|img mo dbg|frame name|]; cbn.
  - unfold setup_video_writer. now destruct (save_video r).
  - unfold render_frame.
    destruct (save_video r), (video_writer r); reflexivity.
  - reflexivity.
  - unfold cleanup. now destruct (video_writer r).
Qed.

Lemma no_video_step (r : Renderer Image) (disk : Disk Image) (c : Call Image)
  (calls : list (Call Image)) :
  no_video r (c :: calls) ->
  no_video (fst (exec (r, disk) c)) calls /\
  frame_count (fst (exec (r, disk) c)) = frame_count r /\
  output_dir (fst (exec (r, disk) c)) = output_dir r.
Proof.
  intros [Hwriter Hoff].
  assert (Hrest : save_video r = false \/
                  forallb (fun c => negb (is_setup c)) calls = true).
  { destruct Hoff as [Hoff|Hoff]; [now left|right].
    cbn [forallb] in Hoff. now apply andb_prop in Hoff. }
  unfold no_video.
  destruct c as [width height name|img mo dbg|frame name|]; cbn.
  - unfold setup_video_writer.
    destruct (save_video r) eqn:Hsave; cbn.
    + destruct Hoff as [Hoff|Hoff]; [discriminate Hoff|].
      cbn in Hoff. discriminate Hoff.
    + auto.
  - assert (Hsame : fst (render_frame cvtColor_RGB2BGR draw_control_info
                                       draw_debug_info r img mo dbg) = r).
    { unfold render_frame. rewrite Hwriter. now destruct (save_video r). }
    rewrite Hsame. auto.
  - auto.
  - unfold cleanup. rewrite Hwriter. auto.
Qed.

Lemma last_unnamed_acc (calls : list (Call Image)) : forall acc,
  last_unnamed calls acc
  = match last_unnamed calls None with
    | Some f => Some f
    | None => acc
    end.
Proof.
  induction calls as [|c calls IH]; intros acc; [reflexivity|].
  destruct c as [| |frame [name|]|]; cbn [last_unnamed]; try apply IH.
  rewrite (IH (Some frame)).
  now destruct (last_unnamed calls None).
Qed.

(** Without video, every run keeps the counter where it was, and the
    stills saved without a name all land in one file. *)
Lemma no_video_run : forall calls (r : Renderer Image) (disk : Disk Image),
  no_video r calls ->
  frame_count r = 0 ->
  let s' := exec_all (r, disk) calls in
  let still := path_join (output_dir r) "frame_000000.jpg" in
  frame_count (fst s') = 0 /\
  output_dir (fst s') = output_dir r /\
  (forallb (@unnamed_only Image) calls = true ->
   (forall p, p <> still -> Dict.lookup (snd s') p = Dict.lookup disk p) /\
   Dict.lookup (snd s') still
   = match last_unnamed calls None with
     | Some f => Some f
     | None => Dict.lookup disk still
     end).
Proof.
  induction calls as [|c calls IH]; intros r disk Hquiet Hcount; cbn zeta.
  - cbn. repeat split; auto.
  - destruct (no_video_step disk Hquiet) as (Hquiet' & Hcount' & Hdir').
    unfold Renderer.exec_all. cbn [fold_left].
    destruct (exec (r, disk) c) as [r1 disk1] eqn:Hexec.
    cbn [fst] in Hquiet', Hcount', Hdir'.
    specialize (IH r1 disk1 Hquiet' (eq_trans Hcount' Hcount)).
    cbn zeta in IH. unfold Renderer.exec_all in IH.
    destruct IH as (Hc & Hd & Hdisk). rewrite Hdir' in Hd, Hdisk.
    split; [exact Hc|]. split; [exact Hd|].
    intros Hunnamed. cbn [forallb] in Hunnamed.
    apply andb_prop in Hunnamed as [Hc_unnamed Hrest].
    destruct (Hdisk Hrest) as [Hother Hstill].
    assert (Hdisk1 :
      disk1 = match c with
              | SaveFrame frame None =>
                  Dict.set disk (path_join (output_dir r) "frame_000000.jpg") frame
              | _ => disk
              end).
    { destruct c as [| |frame [name|]|]; cbn in Hexec;
        try (injection Hexec as _ <-; reflexivity);
        try discriminate Hc_unnamed.
      injection Hexec as _ <-.
      unfold save_frame, auto_name. now rewrite Hcount. }
    destruct c as [| |frame [name|]|]; try discriminate Hc_unnamed;
      subst disk1; cbn [last_unnamed]; try (split; assumption).
    split.
    + intros p Hp. rewrite (Hother p Hp). now apply lookup_set_other.
    + rewrite Hstill, (last_unnamed_acc calls (Some frame)), lookup_set_same.
      now destruct (last_unnamed calls None).
Qed.

(** C10: the frame counter moves only in a [render_frame] call that finds
    [save_video] set and a video writer in place, where it goes up by
    one.  So on a renderer with video saving disabled, or with no writer
    set up, the counter stays 0 whatever is called; every [save_frame]
    without a file name then writes [frame_000000.jpg] in the output
    directory, and after a run of such saves that one file holds the last
    still saved, every other file being as before. *)
Theorem unnamed_stills_overwrite_without_video :
  (forall (r : Renderer Image) (disk : Disk Image) (c : Call Image),
     frame_count (fst (exec (r, disk) c))
     = if writes_video r c then frame_count r + 1 else frame_count r)
  /\
  (forall (dir : string) (sv : bool) (fps : nat) (disk : Disk Image)
          (calls : list (Call Image)),
     sv = false \/ forallb (fun c => negb (is_setup c)) calls = true ->
     let s' := exec_all (init Image dir sv fps, disk) calls in
     let still := path_join dir "frame_000000.jpg" in
     frame_count (fst s') = 0 /\
     (forall disk0 frame,
        save_frame (fst s') disk0 frame None = Dict.set disk0 still frame) /\
     (forallb (@unnamed_only Image) calls = true ->
      (forall p, p <> still -> Dict.lookup (snd s') p = Dict.lookup disk p) /\
      Dict.lookup (snd s') still
      = match last_unnamed calls None with
        | Some f => Some f
        | None => Dict.lookup disk still
        end)).
Proof.
  split; [exact frame_count_exec|].
  intros dir sv fps disk calls Hoff.
  destruct (@no_video_run calls (init Image dir sv fps) disk) as (Hc & Hd & Hdisk).
  - split; [reflexivity|exact Hoff].
  - reflexivity.
  - cbn zeta. split; [exact Hc|]. split; [|exact Hdisk].
    intros disk0 frame. unfold save_frame, auto_name.
    now rewrite Hc, Hd.
Qed.

End WithImages.

(** Two frames rendered and saved without a name, video saving off: one
    file, holding the second still. *)
Lemma unnamed_stills_overwrite_without_video_witness :
  let calls := [RenderFrame 1 None None; SaveFrame 1 None;
                RenderFrame 2 None None; SaveFrame 2 None] in
  let s' := exec_all (fun i : nat => i) (fun i _ _ => i) (fun i _ => i)
                     (init nat "results" false 30, []) calls in
  frame_count (fst s') = 0 /\
  Dict.lookup (snd s') "results/frame_000000.jpg" = Some 2.
Proof.
  cbn zeta.
  destruct (proj2 (@unnamed_stills_overwrite_without_video nat
                     (fun i : nat => i) (fun i _ _ => i) (fun i _ => i))
                  "results" false 30 []
                  [RenderFrame 1 None None; SaveFrame 1 None;
                   RenderFrame 2 None None; SaveFrame 2 None]
                  (or_introl eq_refl))
    as (Hc & _ & Hdisk).
  split; [exact Hc|].
  exact (proj2 (Hdisk eq_refl)).
Defined.

End RendererFacts.

(** ** More about the sensor bridge: malformed frames, teardown, schedules *)

Module BridgeFacts.

Import Carla Sensors NumpyFacts SensorFacts.

(** *** Which buffers decode *)

Lemma camera_reshape (h w : nat) (raw : list byte) :
  reshape (frombuffer_uint8 raw) [h; w; 4]
  = if List.length raw =? h * w * 4
    then Ok {| shape := [h; w; 4]; data := raw |}
    else Raise (ValueError "cannot reshape array").
Proof.
  unfold reshape. cbn [prod_shape fold_right frombuffer_uint8 data].
  replace (h * (w * (4 * 1))) with (h * w * 4) by lia.
  rewrite (Nat.eqb_sym (h * w * 4)). reflexivity.
Qed.

Lemma lidar_mod16 (n : nat) : (n mod 16 =? 0) = (n mod 4 =? 0) && (n / 4 mod 4 =? 0).
Proof.
  pose proof (Nat.div_mod_eq n 4) as Hn.
  pose proof (Nat.mod_upper_bound n 4 ltac:(lia)) as Hr.
  pose proof (Nat.div_mod_eq (n / 4) 4) as Hq.
  pose proof (Nat.mod_upper_bound (n / 4) 4 ltac:(lia)) as Hr2.
  pose proof (Nat.div_mod_eq n 16) as Hn16.
  pose proof (Nat.mod_upper_bound n 16 ltac:(lia)) as Hr16.
  destruct (Nat.eqb_spec (n mod 16) 0) as [H16|H16];
    destruct (Nat.eqb_spec (n mod 4) 0) as [H4|H4];
    destruct (Nat.eqb_spec (n / 4 mod 4) 0) as [H44|H44];
    cbn [andb]; try reflexivity; exfalso; lia.
Qed.

Lemma length_group4_div (raw : list byte) :
  List.length raw mod 4 = 0 ->
  List.length (group4 raw) = List.length raw / 4.
Proof.
  intros Hmod. apply length_group4.
  pose proof (Nat.div_mod_eq (List.length raw) 4). lia.
Qed.

(** What the decode step makes of a buffer. *)
Lemma decode_outcome (k : SensorKind) (d : SensorData) :
  match decode k d with
  | Ok _ => well_sized k d = true
  | Raise e => well_sized k d = false /\ exists msg, e = ValueError msg
  end.
Proof.
  destruct k as [fov|channels range|fov|fov]; unfold decode, well_sized.
  - rewrite camera_reshape.
    destruct (List.length (raw_data d) =? height d * width d * 4);
      cbn; eauto.
  - unfold frombuffer_f4. rewrite lidar_mod16.
    destruct (Nat.eqb_spec (List.length (raw_data d) mod 4) 0) as [H4|H4];
      cbn [bind andb]; [|eauto].
    unfold reshape. cbn [shape data hd prod_shape fold_right].
    rewrite (length_group4_div _ H4).
    set (n := List.length (raw_data d) / 4).
    pose proof (Nat.div_mod_eq n 4) as Hn.
    destruct (Nat.eqb_spec (n / 4 * (4 * 1)) n) as [He|He];
      destruct (Nat.eqb_spec (n mod 4) 0) as [Hm|Hm];
      cbn [bind]; eauto; exfalso; lia.
  - rewrite camera_reshape.
    destruct (List.length (raw_data d) =? height d * width d * 4);
      cbn; eauto.
  - rewrite camera_reshape.
    destruct (List.length (raw_data d) =? height d * width d * 4);
      cbn; eauto.
Qed.

(** X3: the decode step accepts exactly the buffers of the right size: a
    camera buffer of [height * width * 4] bytes, a lidar buffer of a
    whole number of 16-byte points.  On any other buffer it raises a
    [ValueError], and [_sensor_callback] queues nothing; on a buffer it
    accepts, exactly one frame is added at the tail of the queue. *)
Theorem decode_accepts_exactly_well_sized (b : BaseSensor) (d : SensorData) :
  raises (decode (kind b) d) = negb (well_sized (kind b) d) /\
  match sensor_callback b d with
  | Ok b' =>
      well_sized (kind b) d = true /\
      exists f, decode (kind b) d = Ok f /\ b' = with_queue b (queue b ++ [f])
  | Raise e =>
      well_sized (kind b) d = false /\ exists msg, e = ValueError msg
  end.
Proof.
  pose proof (decode_outcome (kind b) d) as Hdec.
  unfold sensor_callback.
  destruct (decode (kind b) d) as [f|e]; cbn [bind raises].
  - rewrite Hdec. split; [reflexivity|]. split; [reflexivity|]. now exists f.
  - destruct Hdec as [Hbad Hmsg]. rewrite Hbad. now split.
Qed.

(** *** From [spawn()] to [destroy()] *)

Lemma nth_error_listen_new (w : World) (a : Actor) :
  nth_error
    (actors (listen (with_actors w (actors w ++ [a])) (List.length (actors w))))
    (List.length (actors w))
  = Some {| actor_blueprint := actor_blueprint a;
            actor_transform := actor_transform a;
            actor_parent := actor_parent a;
            is_alive := is_alive a;
            is_listening := is_alive a;
            destroy_calls := destroy_calls a |}.
Proof.
  unfold listen. cbn [actors with_actors].
  rewrite nth_error_update_nth, Nat.eqb_refl.
  rewrite nth_error_app2, Nat.sub_diag by lia. reflexivity.
Qed.

Lemma nth_error_listen_old (w : World) (a : Actor) (j : nat) :
  j <> List.length (actors w) ->
  nth_error
    (actors (listen (with_actors w (actors w ++ [a])) (List.length (actors w)))) j
  = nth_error (actors w ++ [a]) j.
Proof.
  intros Hj. unfold listen. cbn [actors with_actors].
  rewrite nth_error_update_nth.
  apply Nat.eqb_neq in Hj. now rewrite Hj.
Qed.

(** X4: a bridge that is spawned and then destroyed leaves its actor dead,
    no longer listening and destroyed exactly once, its consumer thread
    past the loop and its flag cleared; the actors and threads that were
    there before the [spawn()] are as they were. *)
Theorem spawn_then_destroy (rt rt1 : Runtime) (b b1 : BaseSensor) :
  spawn rt b = Ok (rt1, b1) ->
  let rt2 := fst (destroy rt1 b1) in
  let b2 := snd (destroy rt1 b1) in
  let id := List.length (actors (world rt)) in
  let tid := List.length (threads rt) in
  sensor b2 = Some id /\ thread b2 = Some tid /\ running b2 = false /\
  (exists a,
     nth_error (actors (world rt2)) id = Some a /\
     is_alive a = false /\ is_listening a = false /\ destroy_calls a = 1 /\
     actor_parent a = attachment (config b) /\
     actor_transform a = config_transform (config b)) /\
  nth_error (threads rt2) tid = Some Exited /\
  (forall j, j < id ->
     nth_error (actors (world rt2)) j = nth_error (actors (world rt)) j) /\
  (forall t, t < tid ->
     nth_error (threads rt2) t = nth_error (threads rt) t).
Proof.
  intros Hspawn. rewrite spawn_outcome in Hspawn.
  destruct (find (world rt) (blueprint_id (kind b))) as [bp|]; [|discriminate].
  destruct (blocked (world rt) (actors (world rt)) (attachment (config b))
                    (config_transform (config b))); [discriminate|].
  injection Hspawn as <- <-. cbn zeta.
  unfold destroy. cbn [thread sensor world threads].
  rewrite nth_error_app2, Nat.sub_diag by lia. cbn [nth_error].
  cbn [join process_data_step running fst snd sensor thread world threads].
  repeat split.
  - eexists. split.
    + unfold Carla.destroy. cbn [actors with_actors].
      rewrite nth_error_update_nth, Nat.eqb_refl, nth_error_listen_new.
      reflexivity.
    + cbn. repeat split.
  - rewrite nth_error_update_nth, Nat.eqb_refl.
    rewrite nth_error_app2, Nat.sub_diag by lia. reflexivity.
  - intros j Hj. unfold Carla.destroy. cbn [actors with_actors].
    rewrite nth_error_update_nth.
    assert (Hne : (j =? List.length (actors (world rt))) = false)
      by (apply Nat.eqb_neq; lia).
    rewrite Hne, nth_error_listen_old by lia.
    now rewrite nth_error_app1.
  - intros t Ht. rewrite nth_error_update_nth.
    assert (Hne : (t =? List.length (threads rt)) = false)
      by (apply Nat.eqb_neq; lia).
    rewrite Hne. now rewrite nth_error_app1.
Qed.

(** The sample camera, spawned and destroyed. *)
Lemma spawn_then_destroy_witness :
  exists rt1 b1,
    spawn Samples.runtime0 Samples.camera0 = Ok (rt1, b1) /\
    Carla.alive (world (fst (destroy rt1 b1))) 0 = false /\
    nth_error (threads (fst (destroy rt1 b1))) 0 = Some Exited.
Proof.
  eexists _, _. split; [reflexivity|].
  destruct (@spawn_then_destroy Samples.runtime0 _ Samples.camera0 _ eq_refl)
    as (_ & _ & _ & (a & Ha & Hdead & _) & Hthread & _).
  split; [|exact Hthread].
  pose proof (f_equal (fun o => match o with
                                | Some x => is_alive x
                                | None => false
                                end) Ha) as H.
  cbn beta iota in H. rewrite Hdead in H. exact H.
Defined.

(** *** Executions *)

Lemma subseq_app_tail {A} (l1 l2 t : list A) :
  subseq l1 l2 -> subseq (l1 ++ t) (l2 ++ t).
Proof.
  induction 1 as [|x l1 l2 _ IH|x l1 l2 _ IH]; cbn.
  - induction t; constructor; assumption.
  - now constructor.
  - now constructor.
Qed.

(** X5: in every execution, whatever the threads do and whatever arrives,
    the frames [get_data()] has returned, followed by the frames still
    queued, are a subsequence of the frames queued at the start followed
    by the decodings of the deliveries that decode: no frame is made up,
    returned twice or overtaken, and a malformed delivery adds nothing. *)
Theorem frames_are_conserved : forall (es : list Event) (rt : Runtime)
                                      (b : BaseSensor),
  subseq (frames_of (snd (run (rt, b) es)) ++ queue (snd (fst (run (rt, b) es))))
         (queue b ++ decoded (kind b) (deliveries es)).
Proof.
  induction es as [|e es IH]; intros rt b.
  - cbn. rewrite app_nil_r.
    clear. induction (queue b); constructor; assumption.
  - rewrite run_cons. cbn [fst snd]. rewrite frames_of_app, <- app_assoc.
    destruct e as [d|tid|].
    + cbn [deliveries decoded step]. unfold sensor_callback.
      destruct (decode (kind b) d) as [f|err]; cbn [bind fst snd app frames_of].
      * replace (queue b ++ f :: decoded (kind b) (deliveries es))
          with ((queue b ++ [f]) ++ decoded (kind b) (deliveries es))
          by (now rewrite <- app_assoc).
        apply (IH rt (with_queue b (queue b ++ [f]))).
      * apply IH.
    + cbn [deliveries step].
      destruct (nth_error (threads rt) tid) as [t|]; [|apply IH].
      destruct t; cbn [process_data_step].
      * destruct (running b); cbn [fst snd app frames_of]; apply IH.
      * cbn [fst snd app frames_of].
        destruct (queue b) as [|f q] eqn:Hq.
        -- apply (IH {| world := world rt;
                        threads := update_nth tid (fun _ => AtLoopTest)
                                              (threads rt) |}
                     (with_queue b (tl []))).
        -- apply subseq_skip.
           apply (IH {| world := world rt;
                        threads := update_nth tid (fun _ => AtLoopTest)
                                              (threads rt) |}
                     (with_queue b q)).
      * cbn [fst snd app frames_of]. apply IH.
    + cbn [deliveries step]. unfold get_data.
      destruct (queue b) as [|f q] eqn:Hq; cbn [fst snd app frames_of].
      * specialize (IH rt b). now rewrite Hq in IH.
      * apply subseq_take. apply (IH rt (with_queue b q)).
Qed.

Lemma update_nth_same {A} (x : A) : forall n l,
  nth_error l n = Some x -> update_nth n (fun _ => x) l = l.
Proof.
  induction n as [|n IH]; intros [|a l] H; cbn in *; try discriminate.
  - now injection H as ->.
  - f_equal. now apply IH.
Qed.

Lemma all_exited_nth (ths : list ThreadState) (tid : nat) (t : ThreadState) :
  Forall (fun t => t = Exited) ths -> nth_error ths tid = Some t -> t = Exited.
Proof.
  intros Hall Hnth. apply nth_error_In in Hnth.
  rewrite Forall_forall in Hall. now apply Hall.
Qed.

(** Once every consumer thread is past its loop, their steps change
    nothing. *)
Lemma run_without_consumers : forall (es : list Event) (rt : Runtime)
                                     (b : BaseSensor),
  Forall (fun t => t = Exited) (threads rt) ->
  run (rt, b) es = run (rt, b) (without_consumers es).
Proof.
  induction es as [|e es IH]; intros rt b Hall; [reflexivity|].
  destruct e as [d|tid|].
  - cbn [without_consumers]. rewrite !run_cons. cbn [step].
    destruct (sensor_callback b d); cbn [fst snd]; now rewrite IH.
  - cbn [without_consumers]. rewrite run_cons. cbn [step].
    destruct (nth_error (threads rt) tid) as [t|] eqn:Ht.
    + pose proof (@all_exited_nth (threads rt) tid t Hall Ht) as ->.
      cbn [process_data_step fst snd app].
      rewrite (@update_nth_same _ Exited tid (threads rt) Ht).
      replace {| world := world rt; threads := threads rt |} with rt
        by (now destruct rt).
      rewrite <- IH by assumption. now destruct (run (rt, b) es) as [s o].
    + cbn [fst snd app]. rewrite <- IH by assumption.
      now destruct (run (rt, b) es) as [s o].
  - cbn [without_consumers]. rewrite !run_cons. cbn [step].
    destruct (get_data b); cbn [fst snd]; now rewrite IH.
Qed.

(** [destroy()] right after [spawn()] leaves the new thread past its
    loop and the older ones alone. *)
Lemma threads_after_destroy (rt rt1 : Runtime) (b b1 : BaseSensor) :
  spawn rt b = Ok (rt1, b1) ->
  threads (fst (destroy rt1 b1)) = threads rt ++ [Exited].
Proof.
  intros Hspawn. rewrite spawn_outcome in Hspawn.
  destruct (find (world rt) (blueprint_id (kind b))); [|discriminate].
  destruct (blocked (world rt) (actors (world rt)) (attachment (config b))
                    (config_transform (config b))); [discriminate|].
  injection Hspawn as <- <-.
  unfold destroy. cbn [thread sensor world threads].
  rewrite nth_error_app2, Nat.sub_diag by lia. cbn [nth_error].
  cbn [join process_data_step running fst snd sensor thread world threads].
  generalize (threads rt). clear. intros ths.
  induction ths as [|t ths IH]; cbn; [reflexivity|]. now rewrite IH.
Qed.

(** X6: after [destroy()] the consumer competes no more.  If the bridge
    was spawned when no other consumer thread was running, then in every
    execution after its [destroy()] the steps of the consumer threads are
    without effect: the state reached and the results of [get_data()] are
    those of the same execution with these steps left out. *)
Theorem consumer_inert_after_destroy
  (rt rt1 : Runtime) (b b1 : BaseSensor) (es : list Event) :
  Forall (fun t => t = Exited) (threads rt) ->
  spawn rt b = Ok (rt1, b1) ->
  run (destroy rt1 b1) es = run (destroy rt1 b1) (without_consumers es).
Proof.
  intros Hall Hspawn.
  pose proof (@threads_after_destroy rt rt1 b b1 Hspawn) as Hths.
  destruct (destroy rt1 b1) as [rt2 b2]. cbn [fst] in Hths.
  apply run_without_consumers. rewrite Hths.
  apply Forall_app. split; [exact Hall|]. now constructor.
Qed.

(** On the sample camera: a frame delivered after [destroy()] is still
    there for [get_data()] after two steps of the consumer thread. *)
Lemma consumer_inert_after_destroy_witness :
  exists rt1 b1,
    spawn Samples.runtime0 Samples.camera0 = Ok (rt1, b1) /\
    snd (run (destroy rt1 b1)
             [Deliver Samples.image1; Consumer 0; Consumer 0; Poll])
    = [Some Samples.frame1].
Proof.
  eexists _, _. split; [reflexivity|].
  rewrite (@consumer_inert_after_destroy Samples.runtime0 _ Samples.camera0 _
             [Deliver Samples.image1; Consumer 0; Consumer 0; Poll]
             (Forall_nil _) eq_refl).
  reflexivity.
Defined.

End BridgeFacts.

(** ** More about the facade: preconditions, registration, teardown *)

Module FacadeFacts.

Import Carla Simulator SensorFacts DictFacts.

(** *** Spawning the vehicle *)


(** *** Attaching sensors *)

Lemma attach_outcome (w : World) (s : CarlaSimulator) (name : string)
  (v : ActorId) (bp : Blueprint) (configure : Blueprint -> Blueprint)
  (position rotation : Q * Q * Q) :
  let t := pose position rotation in
  attach w s name v (Some bp) configure position rotation
  = if blocked w (actors w) (Some v) t
    then Raise (RuntimeError "Spawn failed because of collision at spawn position")
    else Ok (listen (with_actors w (actors w ++ [new_actor (configure bp) t (Some v)]))
                    (List.length (actors w)),
             with_sensor s name (List.length (actors w))).
Proof.
  destruct position as [[x y] z], rotation as [[p yw] r]. cbn zeta.
  unfold attach, spawn_actor, try_spawn_actor. cbn [fst snd].
  now destruct (blocked w (actors w) (Some v) _).
Qed.

(** X8: [add_rgb_camera] needs a vehicle: without one it raises
    [RuntimeError "No vehicle spawned"].  With a vehicle, a known
    blueprint and no collision it creates one new actor: alive, listening,
    attached to the vehicle at the given pose, 960 by 480 pixels whatever
    is asked for, with the given field of view; the name then maps to this
    actor, every other name keeps its sensor, and the stored frames are
    untouched. *)
Theorem add_rgb_camera_registers
  (w : World) (s : CarlaSimulator) (name : string)
  (position rotation : Q * Q * Q) (fov : Q) :
  (vehicle s = None ->
   add_rgb_camera w s name position rotation fov
   = Raise (RuntimeError "No vehicle spawned"))
  /\
  (forall v w' s',
     vehicle s = Some v ->
     add_rgb_camera w s name position rotation fov = Ok (w', s') ->
     let id := List.length (actors w) in
     List.length (actors w') = S id /\
     Dict.lookup (sensors s') name = Some id /\
     (forall other, other <> name ->
        Dict.lookup (sensors s') other = Dict.lookup (sensors s) other) /\
     sensor_data s' = sensor_data s /\ vehicle s' = Some v /\
     (forall j, j < id -> nth_error (actors w') j = nth_error (actors w) j) /\
     exists a,
       nth_error (actors w') id = Some a /\
       is_alive a = true /\ is_listening a = true /\
       actor_parent a = Some v /\
       bp_id (actor_blueprint a) = "sensor.camera.rgb" /\
       bp_attributes (actor_blueprint a) = camera_attributes fov /\
       actor_transform a = pose position rotation).
Proof.
  split.
  - intros Hv. unfold add_rgb_camera. now rewrite Hv.
  - intros v w' s' Hv Hadd. unfold add_rgb_camera in Hadd. rewrite Hv in Hadd.
    unfold find in Hadd.
    destruct (existsb (String.eqb "sensor.camera.rgb") (library w));
      [|discriminate Hadd].
    rewrite attach_outcome in Hadd.
    destruct (blocked w (actors w) (Some v) _); [discriminate Hadd|].
    injection Hadd as <- <-. cbn zeta.
    split.
    { unfold listen. cbn [actors with_actors].
      rewrite length_update_nth, length_app. cbn. lia. }
    split; [apply lookup_set_same|].
    split; [intros other Hne; now apply lookup_set_other|].
    split; [reflexivity|]. split; [exact Hv|].
    split.
    { intros j Hj. rewrite BridgeFacts.nth_error_listen_old by lia.
      now rewrite nth_error_app1. }
    eexists. split; [apply BridgeFacts.nth_error_listen_new|].
    cbn. repeat split.
Qed.

(** A camera named [front] on the vehicle of the sample world. *)
Lemma add_rgb_camera_registers_witness :
  exists w' s',
    add_rgb_camera Samples.city Samples.driving "front" (1.5, 0, 2.4)%Q
                   (0, 0, 0)%Q 90
    = Ok (w', s') /\
    Dict.lookup (sensors s') "front" = Some 1.
Proof.
  eexists _, _. split; [reflexivity|].
  exact (proj1 (proj2 (proj2 (@add_rgb_camera_registers
           Samples.city Samples.driving "front" (1.5, 0, 2.4)%Q (0, 0, 0)%Q 90)
           0 _ _ eq_refl eq_refl))).
Defined.

(** *** Teardown *)

Lemma alive_destroy (w : World) (id j : ActorId) :
  alive (Carla.destroy w id) j = alive w j && negb (j =? id).
Proof.
  unfold alive, Carla.destroy. cbn [actors with_actors].
  rewrite nth_error_update_nth.
  destruct (j =? id); destruct (nth_error (actors w) j) as [a|]; cbn;
    try reflexivity; now rewrite ?andb_true_r, ?andb_false_r.
Qed.

Lemma alive_destroy_all (ids : list ActorId) : forall (w : World) (j : ActorId),
  alive (fold_left Carla.destroy ids w) j
  = alive w j && negb (existsb (Nat.eqb j) ids).
Proof.
  induction ids as [|id ids IH]; intros w j; cbn [fold_left existsb].
  - now rewrite andb_true_r.
  - rewrite IH, alive_destroy, negb_orb. now rewrite andb_assoc.
Qed.

Lemma actors_destroy_other (w : World) (id j : ActorId) :
  j <> id ->
  nth_error (actors (Carla.destroy w id)) j = nth_error (actors w) j.
Proof.
  intros Hne. unfold Carla.destroy. cbn [actors with_actors].
  rewrite nth_error_update_nth. apply Nat.eqb_neq in Hne. now rewrite Hne.
Qed.

Lemma actors_destroy_all_other (ids : list ActorId) :
  forall (w : World) (j : ActorId),
    ~ In j ids ->
    nth_error (actors (fold_left Carla.destroy ids w)) j = nth_error (actors w) j.
Proof.
  induction ids as [|id ids IH]; intros w j Hnot; cbn [fold_left]; [reflexivity|].
  rewrite IH by (intros Hin; apply Hnot; now right).
  apply actors_destroy_other. intros ->. apply Hnot. now left.
Qed.

Lemma lookup_in_values {V} (d : list (string * V)) (k : string) (v : V) :
  Dict.lookup d k = Some v -> In v (Dict.values d).
Proof.
  unfold Dict.values.
  induction d as [|[k' v'] d IH]; cbn; [discriminate|].
  destruct (String.eqb k k'); [intros [= ->]; now left|].
  intros H. right. now apply IH.
Qed.

(** X10: [disconnect()] destroys every sensor registered under a name
    and the vehicle, if there is one: none of them is alive afterwards.
    Actors the facade holds no reference to are left exactly as they
    were.  Every field of the facade is reset, and a second
    [disconnect()] changes nothing. *)
Theorem disconnect_destroys_what_is_registered (w : World) (s : CarlaSimulator) :
  let w' := fst (disconnect w s) in
  snd (disconnect w s) = init /\
  (forall name id, Dict.lookup (sensors s) name = Some id -> alive w' id = false) /\
  (forall v, vehicle s = Some v -> alive w' v = false) /\
  (forall j, ~ In j (Dict.values (sensors s)) -> vehicle s <> Some j ->
     nth_error (actors w') j = nth_error (actors w) j) /\
  disconnect w' (snd (disconnect w s)) = disconnect w s.
Proof.
  cbn zeta. unfold disconnect. cbn [fst snd].
  split; [reflexivity|]. split; [|split; [|split]].
  - intros name id Hreg. apply lookup_in_values in Hreg.
    assert (Hgone : alive (fold_left Carla.destroy (Dict.values (sensors s)) w) id
                    = false).
    { rewrite alive_destroy_all.
      assert (Hex : existsb (Nat.eqb id) (Dict.values (sensors s)) = true).
      { apply existsb_exists. exists id. split; [exact Hreg|apply Nat.eqb_refl]. }
      rewrite Hex. apply andb_false_r. }
    destruct (vehicle s) as [v|]; [|exact Hgone].
    rewrite alive_destroy, Hgone. reflexivity.
  - intros v ->. rewrite alive_destroy, Nat.eqb_refl. apply andb_false_r.
  - intros j Hnot Hveh.
    destruct (vehicle s) as [v|].
    + rewrite actors_destroy_other by (intros ->; now apply Hveh).
      now apply actors_destroy_all_other.
    + now apply actors_destroy_all_other.
  - reflexivity.
Qed.

Lemma set_set {V} (d : list (string * V)) (k : string) (a b : V) :
  Dict.set (Dict.set d k a) k b = Dict.set d k b.
Proof.
  induction d as [|[k' v'] d IH]; cbn.
  - now rewrite String.eqb_refl.
  - destruct (String.eqb k k') eqn:E; cbn; rewrite E; [reflexivity|].
    now rewrite IH.
Qed.

Lemma in_values_set {V} (d : list (string * V)) (k : string) (v x : V) :
  In x (Dict.values (Dict.set d k v)) -> x = v \/ In x (Dict.values d).
Proof.
  unfold Dict.values.
  induction d as [|[k' v'] d IH]; cbn.
  - intros [<-|[]]. now left.
  - destruct (String.eqb k k'); cbn.
    + intros [<-|Hin]; [now left|right; now right].
    + intros [<-|Hin]; [right; now left|].
      destruct (IH Hin) as [->|Hin']; [now left|right; now right].
Qed.

Lemma add_rgb_camera_outcome (w w' : World) (s s' : CarlaSimulator)
  (name : string) (position rotation : Q * Q * Q) (fov : Q) :
  add_rgb_camera w s name position rotation fov = Ok (w', s') ->
  exists v bp,
    vehicle s = Some v /\
    w' = listen (with_actors w (actors w ++ [new_actor bp (pose position rotation)
                                                        (Some v)]))
                (List.length (actors w)) /\
    s' = with_sensor s name (List.length (actors w)).
Proof.
  unfold add_rgb_camera. intros Hadd.
  destruct (vehicle s) as [v|]; [|discriminate Hadd].
  destruct (find w "sensor.camera.rgb") as [bp|]; [|discriminate Hadd].
  rewrite attach_outcome in Hadd. cbn zeta in Hadd.
  destruct (blocked w (actors w) (Some v) _); [discriminate Hadd|].
  injection Hadd as <- <-. eexists _, _. repeat split.
Qed.

(** X9: adding a camera under a name that is already taken replaces the
    registered sensor and leaves the earlier actor without a reference:
    the name then maps to the second camera only, and a [disconnect()]
    destroys the second camera while the first stays alive and
    listening. *)
Theorem readded_name_orphans_first_camera
  (w w1 w2 : World) (s s1 s2 : CarlaSimulator) (name : string)
  (position rotation position' rotation' : Q * Q * Q) (fov fov' : Q) :
  Forall (fun id => id < List.length (actors w)) (Dict.values (sensors s)) ->
  (forall v, vehicle s = Some v -> v < List.length (actors w)) ->
  add_rgb_camera w s name position rotation fov = Ok (w1, s1) ->
  add_rgb_camera w1 s1 name position' rotation' fov' = Ok (w2, s2) ->
  let first := List.length (actors w) in
  let second := S first in
  Dict.lookup (sensors s1) name = Some first /\
  Dict.lookup (sensors s2) name = Some second /\
  ~ In first (Dict.values (sensors s2)) /\
  alive (fst (disconnect w2 s2)) second = false /\
  exists a,
    nth_error (actors (fst (disconnect w2 s2))) first = Some a /\
    is_alive a = true /\ is_listening a = true /\ destroy_calls a = 0.
Proof.
  intros Hvalid Hveh H1 H2.
  apply add_rgb_camera_outcome in H1 as (v & bp1 & Hv & -> & ->).
  apply add_rgb_camera_outcome in H2 as (v2 & bp2 & Hv2 & -> & ->).
  cbn [vehicle with_sensor] in Hv2. rewrite Hv in Hv2. injection Hv2 as <-.
  specialize (Hveh v Hv). cbn zeta.
  set (a1 := new_actor bp1 (pose position rotation) (Some v)).
  set (w1 := listen (with_actors w (actors w ++ [a1])) (List.length (actors w))).
  assert (Hlen1 : List.length (actors w1) = S (List.length (actors w))).
  { unfold w1, listen. cbn [actors with_actors].
    rewrite length_update_nth, length_app. cbn. lia. }
  set (a2 := new_actor bp2 (pose position' rotation') (Some v)).
  set (w2 := listen (with_actors w1 (actors w1 ++ [a2])) (List.length (actors w1))).
  assert (Hsensors : sensors (with_sensor
                                (with_sensor s name (List.length (actors w)))
                                name (List.length (actors w1)))
                     = Dict.set (sensors s) name (S (List.length (actors w)))).
  { cbn [sensors with_sensor]. now rewrite set_set, Hlen1. }
  assert (Hnot : ~ In (List.length (actors w))
                      (Dict.values (Dict.set (sensors s) name
                                             (S (List.length (actors w)))))).
  { intros Hin. apply in_values_set in Hin as [Heq|Hin]; [lia|].
    rewrite Forall_forall in Hvalid. specialize (Hvalid _ Hin). lia. }
  assert (Hfirst : nth_error (actors w2) (List.length (actors w))
                   = Some {| actor_blueprint := bp1;
                             actor_transform := pose position rotation;
                             actor_parent := Some v;
                             is_alive := true; is_listening := true;
                             destroy_calls := 0 |}).
  { unfold w2. rewrite BridgeFacts.nth_error_listen_old by lia.
    rewrite nth_error_app1 by lia.
    unfold w1. now rewrite BridgeFacts.nth_error_listen_new. }
  split; [apply lookup_set_same|].
  rewrite Hsensors.
  split; [apply lookup_set_same|].
  split; [exact Hnot|].
  unfold disconnect. cbn [fst vehicle with_sensor]. rewrite Hsensors, Hv.
  split.
  - rewrite alive_destroy, alive_destroy_all.
    assert (Hex : existsb (Nat.eqb (S (List.length (actors w))))
                    (Dict.values (Dict.set (sensors s) name
                                           (S (List.length (actors w))))) = true).
    { apply existsb_exists. exists (S (List.length (actors w))).
      split; [|apply Nat.eqb_refl].
      apply (@lookup_in_values _ _ name), lookup_set_same. }
    rewrite Hex. now rewrite andb_false_r.
  - rewrite actors_destroy_other by lia.
    rewrite actors_destroy_all_other by exact Hnot.
    rewrite Hfirst. eexists. split; [reflexivity|]. cbn. repeat split.
Qed.

(** Two cameras named [front] on the sample vehicle. *)
Lemma readded_name_orphans_first_camera_witness :
  exists w1 s1 w2 s2,
    add_rgb_camera Samples.city Samples.driving "front" (1.5, 0, 2.4)%Q
                   (0, 0, 0)%Q 90 = Ok (w1, s1) /\
    add_rgb_camera w1 s1 "front" (1.5, 0, 2.4)%Q (0, 0, 0)%Q 120 = Ok (w2, s2) /\
    alive (fst (disconnect w2 s2)) 1 = true /\
    alive (fst (disconnect w2 s2)) 2 = false.
Proof.
  assert (Hveh : forall v, vehicle Samples.driving = Some v ->
                           v < List.length (actors Samples.city))
    by (intros v [= <-]; cbn; lia).
  eexists _, _, _, _. split; [reflexivity|]. split; [reflexivity|].
  destruct (@readded_name_orphans_first_camera
              Samples.city _ _ Samples.driving _ _ "front"
              (1.5, 0, 2.4)%Q (0, 0, 0)%Q (1.5, 0, 2.4)%Q (0, 0, 0)%Q 90 120
              (Forall_nil _) Hveh eq_refl eq_refl)
    as (_ & _ & _ & Hsecond & a & Ha & Halive & _).
  split; [|exact Hsecond].
  pose proof (f_equal (fun o => match o with
                                | Some x => is_alive x
                                | None => false
                                end) Ha) as H.
  cbn beta iota in H. rewrite Halive in H. exact H.
Defined.

(** X11: [add_lidar] needs a vehicle as well, and without one raises
    [RuntimeError "No vehicle spawned"].  When it returns it has created
    one new actor from the ray-cast lidar blueprint with the given channel
    count and range: alive, listening, attached to the vehicle at the
    given pose and registered under the name, the other names and the
    stored frames being untouched. *)
Theorem add_lidar_registers
  (w : World) (s : CarlaSimulator) (name : string)
  (position rotation : Q * Q * Q) (channels : Z) (range : Q) :
  (vehicle s = None ->
   add_lidar w s name position rotation channels range
   = Raise (RuntimeError "No vehicle spawned"))
  /\
  (forall v w' s',
     vehicle s = Some v ->
     add_lidar w s name position rotation channels range = Ok (w', s') ->
     let id := List.length (actors w) in
     List.length (actors w') = S id /\
     Dict.lookup (sensors s') name = Some id /\
     (forall other, other <> name ->
        Dict.lookup (sensors s') other = Dict.lookup (sensors s) other) /\
     sensor_data s' = sensor_data s /\ vehicle s' = Some v /\
     (forall j, j < id -> nth_error (actors w') j = nth_error (actors w) j) /\
     exists a,
       nth_error (actors w') id = Some a /\
       is_alive a = true /\ is_listening a = true /\
       actor_parent a = Some v /\
       bp_id (actor_blueprint a) = "sensor.lidar.ray_cast" /\
       bp_attributes (actor_blueprint a)
       = [("channels", AttrNum (inject_Z channels)); ("range", AttrNum range)] /\
       actor_transform a = pose position rotation).
Proof.
  split.
  - intros Hv. unfold add_lidar. now rewrite Hv.
  - intros v w' s' Hv Hadd. unfold add_lidar in Hadd. rewrite Hv in Hadd.
    unfold find in Hadd.
    destruct (existsb (String.eqb "sensor.lidar.ray_cast") (library w));
      [|discriminate Hadd].
    rewrite attach_outcome in Hadd.
    destruct (blocked w (actors w) (Some v) _); [discriminate Hadd|].
    injection Hadd as <- <-. cbn zeta.
    split.
    { unfold listen. cbn [actors with_actors].
      rewrite length_update_nth, length_app. cbn. lia. }
    split; [apply lookup_set_same|].
    split; [intros other Hne; now apply lookup_set_other|].
    split; [reflexivity|]. split; [exact Hv|].
    split.
    { intros j Hj. rewrite BridgeFacts.nth_error_listen_old by lia.
      now rewrite nth_error_app1. }
    eexists. split; [apply BridgeFacts.nth_error_listen_new|].
    cbn. repeat split.
Qed.

(** A lidar named [roof] on the sample vehicle. *)
Lemma add_lidar_registers_witness :
  exists w' s',
    add_lidar Samples.city Samples.driving "roof" (0, 0, 2.5)%Q (0, 0, 0)%Q 64 100
    = Ok (w', s') /\
    Dict.lookup (sensors s') "roof" = Some 1.
Proof.
  eexists _, _. split; [reflexivity|].
  exact (proj1 (proj2 (proj2 (@add_lidar_registers
           Samples.city Samples.driving "roof" (0, 0, 2.5)%Q (0, 0, 0)%Q 64 100)
           0 _ _ eq_refl eq_refl))).
Defined.

(** *** The callbacks *)

Lemma on_camera_data_decode (s : CarlaSimulator) (name : string)
  (d : Sensors.SensorData) (fov : Q) :
  on_camera_data s name d
  = (f <- Sensors.decode (Sensors.RGBCamera fov) d ;; Ok (store s name f)).
Proof.
  unfold on_camera_data, Sensors.decode.
  destruct (reshape _ _) as [a|]; cbn [bind]; [|reflexivity].
  now destruct (take_channels 3 a).
Qed.

Lemma on_lidar_data_decode (s : CarlaSimulator) (name : string)
  (d : Sensors.SensorData) (channels : Z) (range : Q) :
  on_lidar_data s name d
  = (f <- Sensors.decode (Sensors.LidarSensor channels range) d ;;
     Ok (store s name f)).
Proof.
  unfold on_lidar_data, Sensors.decode.
  destruct (frombuffer_f4 _) as [a|]; cbn [bind]; [|reflexivity].
  now destruct (reshape a _).
Qed.

Lemma store_or_raise (k : Sensors.SensorKind) (s : CarlaSimulator)
  (name : string) (d : Sensors.SensorData) :
  stores_or_raises k s name d
    (f <- Sensors.decode k d ;; Ok (store s name f)).
Proof.
  pose proof (BridgeFacts.decode_outcome k d) as Hdec.
  unfold stores_or_raises.
  destruct (Sensors.decode k d) as [f|e]; cbn [bind]; [|exact Hdec].
  split; [exact Hdec|]. split.
  - exists f. split; [reflexivity|]. apply lookup_set_same.
  - split; [|repeat split].
    intros other Hne. now apply lookup_set_other.
Qed.

(** X12: the facade's callbacks decode as the bridge does.  A camera or
    lidar buffer of the right size is decoded to the same frame the
    bridge's decode step gives and stored under the sensor's name,
    leaving the frames of the other names and the rest of the facade
    alone; any other buffer makes the callback raise a [ValueError]. *)
Theorem facade_callbacks_decode_like_bridge
  (s : CarlaSimulator) (name : string) (d : Sensors.SensorData)
  (fov range : Q) (channels : Z) :
  stores_or_raises (Sensors.RGBCamera fov) s name d (on_camera_data s name d) /\
  stores_or_raises (Sensors.LidarSensor channels range) s name d
                   (on_lidar_data s name d).
Proof.
  rewrite (on_camera_data_decode s name d fov).
  rewrite (on_lidar_data_decode s name d channels range).
  split; apply store_or_raise.
Qed.

End FacadeFacts.

(** ** More about the settings: dotted keys, what a merge keeps *)

Module SettingsAccessFacts.

Import Settings DictFacts SettingsFacts.

Local Unset Implicit Arguments.

(** *** Dotted keys *)

Lemma split_dot_cons (key : string) : exists piece pieces,
  split_dot key = piece :: pieces.
Proof.
  induction key as [|c rest IH]; cbn; [now eexists _, _|].
  destruct (Ascii.eqb c "."); [now eexists _, _|].
  destruct IH as (piece & pieces & ->). now eexists _, _.
Qed.

Lemma join_split (key : string) : join_dot (split_dot key) = key.
Proof.
  induction key as [|c rest IH]; [reflexivity|]. cbn [split_dot].
  destruct (split_dot_cons rest) as (piece & pieces & Hrest).
  rewrite Hrest in IH |- *.
  destruct (Ascii.eqb_spec c ".") as [->|Hc].
  - cbn [join_dot]. cbn [join_dot] in IH. now rewrite IH.
  - cbn [join_dot] in IH |- *. destruct pieces as [|p ps].
    + now rewrite IH.
    + cbn [append]. now rewrite IH.
Qed.

Lemma split_dot_pieces (key : string) :
  Forall (fun piece => no_dot piece = true) (split_dot key).
Proof.
  induction key as [|c rest IH]; cbn [split_dot]; [now repeat constructor|].
  destruct (Ascii.eqb c ".") eqn:Hc; [now constructor|].
  destruct (split_dot rest) as [|piece pieces].
  - constructor; [|constructor]. cbn. now rewrite Hc.
  - inversion IH as [|? ? Hp Hps]; subst.
    constructor; [|exact Hps]. cbn. now rewrite Hc, Hp.
Qed.

Lemma split_piece (piece : string) :
  no_dot piece = true -> split_dot piece = [piece].
Proof.
  induction piece as [|c rest IH]; cbn; [reflexivity|].
  intros H. apply andb_prop in H as [Hc Hrest].
  apply negb_true_iff in Hc. rewrite Hc, IH by assumption. reflexivity.
Qed.

Lemma split_piece_dot (piece rest : string) :
  no_dot piece = true ->
  split_dot (piece ++ String "." rest) = piece :: split_dot rest.
Proof.
  induction piece as [|c p IH]; cbn; [reflexivity|].
  intros H. apply andb_prop in H as [Hc Hp].
  apply negb_true_iff in Hc. rewrite Hc, IH by assumption. reflexivity.
Qed.

Lemma split_join (path : list string) :
  path <> [] ->
  Forall (fun piece => no_dot piece = true) path ->
  split_dot (join_dot path) = path.
Proof.
  induction path as [|piece path IH]; intros Hne Hall; [congruence|].
  inversion Hall as [|? ? Hp Hps]; subst.
  destruct path as [|q path'].
  - cbn. now apply split_piece.
  - cbn [join_dot]. rewrite split_piece_dot by assumption.
    f_equal. apply IH; [discriminate|assumption].
Qed.

(** *** Reading a setting *)

Lemma get_loop_none (keys : list string) (default : value) :
  get_loop VNone keys default = default.
Proof. now destruct keys. Qed.

Lemma get_loop_at_path : forall (keys : list string) (v default : value),
  get_loop v keys default
  = match at_path v keys with
    | Some VNone | None => default
    | Some x => x
    end.
Proof.
  induction keys as [|k keys IH]; intros v default.
  - cbn. now destruct v.
  - cbn [get_loop at_path]. destruct v; try reflexivity.
    destruct (Dict.lookup items k) as [x|]; [apply IH|apply get_loop_none].
Qed.

(** X13: [get(key, default)] splits the key at its dots and follows the
    pieces through the nested dicts.  It returns the value found there,
    and [default] when a piece is missing, when the way leads into a
    value that is not a dict, or when the value found is [None].  The
    pieces are what [join] puts together again: every path of dot-free
    keys is reached by its dotted key, and no other key reaches it. *)
Theorem get_follows_dotted_key (s : Settings) (key : string) (default : value) :
  get s key default
  = match at_path (settings s) (split_dot key) with
    | Some VNone | None => default
    | Some x => x
    end
  /\ join_dot (split_dot key) = key
  /\ Forall (fun piece => no_dot piece = true) (split_dot key)
  /\ (forall path, path <> [] ->
        Forall (fun piece => no_dot piece = true) path ->
        split_dot (join_dot path) = path).
Proof.
  split; [apply get_loop_at_path|].
  split; [apply join_split|].
  split; [apply split_dot_pieces|apply split_join].
Qed.

(** *** What a merge keeps *)

Lemma nondict_rejects_items (d : value) (kv : string * value)
  (rest : list (string * value)) :
  is_dict d = false ->
  raises (update_dict d (VDict (kv :: rest))) = true.
Proof.
  intros Hd. destruct kv as [k v].
  destruct d; try discriminate Hd; destruct v; reflexivity.
Qed.

Lemma merge_into_dict (d r : value) (uitems : list (string * value))
  (k : string) (x : value) :
  Dict.lookup uitems k = Some x ->
  update_dict d (VDict uitems) = Ok r ->
  exists ditems, d = VDict ditems.
Proof.
  intros Hk Hrun. destruct uitems as [|kv rest]; [discriminate Hk|].
  destruct (is_dict d) eqn:Hd.
  - destruct d; try discriminate Hd. now eexists.
  - pose proof (nondict_rejects_items d kv rest Hd) as Hraise.
    rewrite Hrun in Hraise. discriminate Hraise.
Qed.

Lemma at_path_is_dict (v : value) (path : list string)
  (items : list (string * value)) :
  at_path v path = Some (VDict items) -> is_dict v = true.
Proof.
  destruct path as [|k path]; cbn.
  - now intros [= ->].
  - destruct v; try discriminate. reflexivity.
Qed.

Lemma at_path_nondict_head (v x : value) (k : string) (path : list string) :
  at_path v (k :: path) = Some x -> is_dict v = true.
Proof. cbn. destruct v; try discriminate. reflexivity. Qed.

(** A value the override holds at a path, not being a dict, is the value
    the merged settings hold there. *)
Lemma merge_keeps_override : forall (path : list string) (d u r v : value),
  path <> [] ->
  distinct_along u path ->
  at_path u path = Some v ->
  is_dict v = false ->
  update_dict d u = Ok r ->
  at_path r path = Some v.
Proof.
  induction path as [|k path IH]; intros d u r v Hne Hdist Hu Hv Hrun;
    [congruence|].
  cbn [at_path] in Hu.
  destruct u as [| | | | | |uitems]; try discriminate Hu.
  destruct (Dict.lookup uitems k) as [u1|] eqn:Hu1; [|discriminate Hu].
  cbn [distinct_along] in Hdist. rewrite Hu1 in Hdist.
  destruct Hdist as [Hnodup Hdist1].
  destruct (merge_into_dict d r uitems k u1 Hu1 Hrun) as [ditems ->].
  rewrite update_dict_items in Hrun.
  destruct (@update_items_spec uitems ditems r Hnodup Hrun)
    as (ritems & -> & Hkeys).
  specialize (Hkeys k). rewrite Hu1 in Hkeys.
  cbn [at_path].
  destruct path as [|k' path'].
  - cbn in Hu. injection Hu as ->. rewrite Hv in Hkeys. now rewrite Hkeys.
  - rewrite (at_path_nondict_head u1 v k' path' Hu) in Hkeys.
    destruct Hkeys as (m & Hm & ->).
    apply (IH (Dict.get ditems k (VDict [])) u1 m v); try assumption.
    discriminate.
Qed.

Lemma at_path_empty_dict (k : string) (path : list string) :
  at_path (VDict []) (k :: path) = None.
Proof. reflexivity. Qed.

(** A key the override does not have, below a dict it does have, holds
    after the merge what it held before. *)
Lemma merge_keeps_untouched : forall (q : list string) (d u r : value)
    (items : list (string * value)) (k : string) (p : list string),
  distinct_along u q ->
  at_path u q = Some (VDict items) ->
  Dict.lookup items k = None ->
  update_dict d u = Ok r ->
  at_path r (q ++ k :: p) = at_path d (q ++ k :: p).
Proof.
  induction q as [|k1 q IH]; intros d u r items k p Hdist Hu Hk Hrun.
  - cbn in Hu. injection Hu as ->. cbn [app].
    cbn [distinct_along] in Hdist. destruct Hdist as [Hnodup _].
    destruct items as [|kv rest].
    + cbn in Hrun. now injection Hrun as <-.
    + destruct kv as [k0 v0].
      assert (Hk0 : Dict.lookup ((k0, v0) :: rest) k0 = Some v0)
        by (cbn; now rewrite String.eqb_refl).
      destruct (merge_into_dict d r ((k0, v0) :: rest) k0 v0 Hk0 Hrun)
        as [ditems ->].
      rewrite update_dict_items in Hrun.
      destruct (@update_items_spec ((k0, v0) :: rest) ditems r Hnodup Hrun)
        as (ritems & -> & Hkeys).
      specialize (Hkeys k). rewrite Hk in Hkeys.
      cbn [at_path]. now rewrite Hkeys.
  - cbn [at_path] in Hu.
    destruct u as [| | | | | |uitems]; try discriminate Hu.
    destruct (Dict.lookup uitems k1) as [u1|] eqn:Hu1; [|discriminate Hu].
    cbn [distinct_along] in Hdist. rewrite Hu1 in Hdist.
    destruct Hdist as [Hnodup Hdist1].
    destruct (merge_into_dict d r uitems k1 u1 Hu1 Hrun) as [ditems ->].
    rewrite update_dict_items in Hrun.
    destruct (@update_items_spec uitems ditems r Hnodup Hrun)
      as (ritems & -> & Hkeys).
    specialize (Hkeys k1). rewrite Hu1, (at_path_is_dict u1 q items Hu) in Hkeys.
    destruct Hkeys as (m & Hm & Hr1).
    rewrite <- app_comm_cons. cbn [at_path]. rewrite Hr1.
    rewrite (IH (Dict.get ditems k1 (VDict [])) u1 m items k p Hdist1 Hu Hk Hm).
    unfold Dict.get. destruct (Dict.lookup ditems k1) as [d1|]; [reflexivity|].
    destruct q; reflexivity.
Qed.

(** X14: after [load_config] the user's value is what [get] returns: if
    the file holds a value that is neither a dict nor [None] under a path
    of dot-free keys, and the load returns, then [get] with the dotted
    key gives that value, whatever the defaults held there. *)
Theorem get_returns_user_value
  (path : list string) (s s' : Settings) (u v default : value) :
  path <> [] ->
  Forall (fun piece => no_dot piece = true) path ->
  distinct_along u path ->
  at_path u path = Some v ->
  is_dict v = false ->
  v <> VNone ->
  load_config s u = Ok s' ->
  get s' (join_dot path) default = v.
Proof.
  intros Hne Hpieces Hdist Hu Hv Hnone Hload.
  unfold load_config in Hload.
  destruct (update_dict (settings s) u) as [r|] eqn:Hrun; [|discriminate Hload].
  injection Hload as <-.
  unfold get. cbn [settings].
  rewrite split_join, get_loop_at_path by assumption.
  rewrite (merge_keeps_override path (settings s) u r v Hne Hdist Hu Hv Hrun).
  destruct v; try reflexivity. congruence.
Qed.

(** The port of the defaults, overridden by [carla: {port: 2001}]. *)
Lemma get_returns_user_value_witness :
  exists s',
    load_config {| config_path := None; settings := load_default_settings |}
                (VDict [("carla", VDict [("port", VInt 2001)])]) = Ok s' /\
    get s' "carla.port" VNone = VInt 2001.
Proof.
  eexists. split; [reflexivity|].
  apply (get_returns_user_value ["carla"; "port"]
           {| config_path := None; settings := load_default_settings |} _
           (VDict [("carla", VDict [("port", VInt 2001)])]) (VInt 2001) VNone).
  - discriminate.
  - repeat constructor.
  - cbn. repeat split; repeat constructor; cbn; intuition discriminate.
  - reflexivity.
  - reflexivity.
  - discriminate.
  - reflexivity.
Defined.

(** X15: a setting the file does not mention keeps its value: if the
    file has a dict under a path and that dict lacks a key, then after
    [load_config] every dotted key that goes through this path and this
    key reads as it did before. *)
Theorem get_unchanged_for_untouched_key
  (q p : list string) (k : string) (s s' : Settings) (u default : value)
  (items : list (string * value)) :
  Forall (fun piece => no_dot piece = true) (q ++ k :: p) ->
  distinct_along u q ->
  at_path u q = Some (VDict items) ->
  Dict.lookup items k = None ->
  load_config s u = Ok s' ->
  get s' (join_dot (q ++ k :: p)) default
  = get s (join_dot (q ++ k :: p)) default.
Proof.
  intros Hpieces Hdist Hu Hk Hload.
  unfold load_config in Hload.
  destruct (update_dict (settings s) u) as [r|] eqn:Hrun; [|discriminate Hload].
  injection Hload as <-.
  unfold get. cbn [settings].
  rewrite split_join by (try assumption; now destruct q).
  rewrite !get_loop_at_path.
  now rewrite (merge_keeps_untouched q (settings s) u r items k p Hdist Hu Hk Hrun).
Qed.

(** The host of the defaults under [carla: {port: 2001}]. *)
Lemma get_unchanged_for_untouched_key_witness :
  exists s',
    load_config {| config_path := None; settings := load_default_settings |}
                (VDict [("carla", VDict [("port", VInt 2001)])]) = Ok s' /\
    get s' "carla.host" VNone = VStr "localhost".
Proof.
  eexists. split; [reflexivity|].
  rewrite (get_unchanged_for_untouched_key ["carla"] [] "host"
             {| config_path := None; settings := load_default_settings |} _
             (VDict [("carla", VDict [("port", VInt 2001)])]) VNone
             [("port", VInt 2001)]).
  - reflexivity.
  - repeat constructor.
  - cbn. repeat split; repeat constructor; cbn; intuition discriminate.
  - reflexivity.
  - reflexivity.
  - reflexivity.
Defined.

(** *** Loading the same file again *)

(** Induction on a value with the hypothesis available for every value
    inside a dict. *)
Section ValueInduction.
Variable P : value -> Prop.
Hypothesis Hnone : P VNone.
Hypothesis Hbool : forall b, P (VBool b).
Hypothesis Hint : forall z, P (VInt z).
Hypothesis Hfloat : forall q, P (VFloat q).
Hypothesis Hstr : forall s, P (VStr s).
Hypothesis Hlist : forall l, P (VList l).
Hypothesis Hdict :
  forall items, Forall (fun kv => P (snd kv)) items -> P (VDict items).

Fixpoint value_dict_ind (v : value) : P v :=
  match v with
  | VNone => Hnone
  | VBool b => Hbool b
  | VInt z => Hint z
  | VFloat q => Hfloat q
  | VStr s => Hstr s
  | VList l => Hlist l
  | VDict items =>
      Hdict items
        ((fix all (items : list (string * value))
            : Forall (fun kv => P (snd kv)) items :=
            match items with
            | [] => Forall_nil _
            | kv :: items' =>
                Forall_cons kv (value_dict_ind (snd kv)) (all items')
            end) items)
  end.

End ValueInduction.

Lemma distinct_keys_items (items : list (string * value)) :
  distinct_keys (VDict items) ->
  NoDup (map fst items) /\
  Forall (fun kv => distinct_keys (snd kv)) items.
Proof.
  cbn [distinct_keys]. intros [Hnodup Hall]. split; [exact Hnodup|].
  clear Hnodup. induction items as [|[k x] items IH]; [constructor|].
  destruct Hall as [Hx Hall]. constructor; [exact Hx|now apply IH].
Qed.

Lemma lookup_of_member {V} (items : list (string * V)) (k : string) (v : V) :
  NoDup (map fst items) -> In (k, v) items -> Dict.lookup items k = Some v.
Proof.
  induction items as [|[k' v'] items IH]; intros Hnodup Hin; [destruct Hin|].
  cbn [map fst] in Hnodup. inversion Hnodup as [|? ? Hfresh Hrest]; subst.
  cbn [Dict.lookup]. destruct Hin as [[= -> ->]|Hin].
  - now rewrite String.eqb_refl.
  - destruct (String.eqb_spec k k') as [->|Hne]; [|now apply IH].
    exfalso. apply Hfresh. change k' with (fst (k', v)). now apply in_map.
Qed.

Lemma set_same_value {V} (d : list (string * V)) (k : string) (x : V) :
  Dict.lookup d k = Some x -> Dict.set d k x = d.
Proof.
  induction d as [|[k' v'] d IH]; cbn; [discriminate|].
  destruct (String.eqb k k'); [now intros [= ->]|].
  intros H. now rewrite IH.
Qed.

(** A pass over items whose values the dict already holds, merged, leaves
    the dict as it is. *)
Lemma second_pass (ritems : list (string * value)) :
  forall items : list (string * value),
    (forall k v, In (k, v) items ->
       if is_dict v
       then exists m, Dict.lookup ritems k = Some m /\ update_dict m v = Ok m
       else Dict.lookup ritems k = Some v) ->
    update_items (VDict ritems) items = Ok (VDict ritems).
Proof.
  induction items as [|[k v] items IH]; intros Hheld; [reflexivity|].
  assert (Hrest : update_items (VDict ritems) items = Ok (VDict ritems)).
  { apply IH. intros k' v' Hin. apply Hheld. now right. }
  specialize (Hheld k v (or_introl eq_refl)).
  cbn [update_items].
  destruct v; cbn [is_dict] in Hheld;
    try (cbn [py_setitem bind]; rewrite (set_same_value ritems k _ Hheld);
         exact Hrest).
  destruct Hheld as (m & Hm & Hmerge).
  cbn [py_get bind]. unfold Dict.get. rewrite Hm, Hmerge.
  cbn [py_setitem bind]. rewrite (set_same_value ritems k m Hm). exact Hrest.
Qed.

Lemma merge_twice : forall (u d r : value),
  distinct_keys u ->
  update_dict d u = Ok r ->
  update_dict r u = Ok r.
Proof.
  induction u as [| | | | | |uitems IH] using value_dict_ind;
    intros d r Hdist Hrun; try discriminate Hrun.
  destruct (distinct_keys_items uitems Hdist) as [Hnodup Hall].
  destruct uitems as [|[k0 v0] rest].
  - cbn in Hrun. injection Hrun as <-. reflexivity.
  - assert (Hk0 : Dict.lookup ((k0, v0) :: rest) k0 = Some v0)
      by (cbn; now rewrite String.eqb_refl).
    destruct (merge_into_dict d r ((k0, v0) :: rest) k0 v0 Hk0 Hrun)
      as [ditems ->].
    rewrite update_dict_items in Hrun.
    destruct (@update_items_spec ((k0, v0) :: rest) ditems r Hnodup Hrun)
      as (ritems & -> & Hkeys).
    rewrite update_dict_items. apply second_pass.
    intros k v Hin. specialize (Hkeys k).
    rewrite (lookup_of_member ((k0, v0) :: rest) k v Hnodup Hin) in Hkeys.
    destruct (is_dict v); [|exact Hkeys].
    destruct Hkeys as (m & Hm & Hr). exists m. split; [exact Hr|].
    rewrite Forall_forall in IH, Hall.
    apply (IH (k, v) Hin (Dict.get ditems k (VDict [])) m (Hall (k, v) Hin) Hm).
Qed.

(** X16: loading the same file a second time changes nothing: if
    [load_config] returns, a further [load_config] with the same content
    returns too and leaves the settings exactly as the first one left
    them. *)
Theorem load_config_twice (s s1 : Settings) (u : value) :
  distinct_keys u ->
  load_config s u = Ok s1 ->
  load_config s1 u = Ok s1.
Proof.
  intros Hdist Hload. unfold load_config in *.
  destruct (update_dict (settings s) u) as [r|] eqn:Hrun; [|discriminate Hload].
  injection Hload as <-. cbn [settings config_path].
  now rewrite (merge_twice u (settings s) r Hdist Hrun).
Qed.

(** The merge example, loaded twice. *)
Lemma load_config_twice_witness :
  exists s1,
    load_config {| config_path := None; settings := Samples.defaults_a |}
                Samples.override_a = Ok s1 /\
    load_config s1 Samples.override_a = Ok s1.
Proof.
  eexists. split; [reflexivity|].
  apply (load_config_twice
           {| config_path := None; settings := Samples.defaults_a |} _
           Samples.override_a).
  - cbn. repeat split; repeat constructor; cbn; intuition discriminate.
  - reflexivity.
Defined.

End SettingsAccessFacts.

(** ** More about the renderer: file names and the video *)

Module VideoFacts.

Import Renderer.

Local Unset Implicit Arguments.

(** *** Strings *)

Lemma length_append (a b : string) :
  String.length (a ++ b) = String.length a + String.length b.
Proof. induction a as [|c a IH]; cbn; [reflexivity|now rewrite IH]. Qed.

Lemma append_snoc (a b : string) (c : ascii) :
  ((a ++ String c EmptyString) ++ b = a ++ String c b)%string.
Proof. induction a as [|c' a IH]; cbn; [reflexivity|now rewrite IH]. Qed.

Lemma append_empty (a : string) : (a ++ EmptyString)%string = a.
Proof. induction a as [|c a IH]; cbn; [reflexivity|now rewrite IH]. Qed.

Lemma append_cancel_r (s : string) : forall a b : string,
  (a ++ s = b ++ s)%string -> a = b.
Proof.
  induction a as [|c a IH]; intros [|c' b] H.
  - reflexivity.
  - exfalso. apply (f_equal String.length) in H.
    cbn in H. rewrite length_append in H. lia.
  - exfalso. apply (f_equal String.length) in H.
    cbn in H. rewrite length_append in H. lia.
  - cbn in H. injection H as -> H. f_equal. now apply IH.
Qed.

(** *** Decimal digits *)

Lemma digit_value_digit (d : nat) : d < 10 -> digit_value (digit d) = d.
Proof.
  intros Hd. unfold digit_value, digit.
  rewrite nat_ascii_embedding by lia. lia.
Qed.

Lemma parse_append (s1 s2 : string) : forall acc,
  parse_decimal_from acc (s1 ++ s2)
  = parse_decimal_from (parse_decimal_from acc s1) s2.
Proof. induction s1 as [|c s1 IH]; intros acc; cbn; [reflexivity|apply IH]. Qed.

Lemma parse_zeros (k : nat) : parse_decimal_from 0 (zeros k) = 0.
Proof. induction k as [|k IH]; [reflexivity|exact IH]. Qed.

Lemma length_zeros (k : nat) : String.length (zeros k) = k.
Proof. induction k as [|k IH]; cbn; [reflexivity|now rewrite IH]. Qed.

(** [decimal] puts the digits of [n] in front of [acc]: they read back as
    [n], and there are no more of them than [n] needs. *)
Lemma decimal_digits : forall (fuel n : nat) (acc : string),
  n < fuel ->
  exists ds,
    decimal fuel n acc = (ds ++ acc)%string /\
    (forall a, parse_decimal_from a ds = a * 10 ^ String.length ds + n) /\
    (String.length ds = 1 \/
     (2 <= String.length ds /\ 10 ^ (String.length ds - 1) <= n)).
Proof.
  induction fuel as [|fuel IH]; intros n acc Hfuel; [lia|].
  cbn [decimal].
  pose proof (Nat.div_mod_eq n 10) as Hn.
  pose proof (Nat.mod_upper_bound n 10 ltac:(lia)) as Hd.
  destruct (Nat.eqb_spec (n / 10) 0) as [Hq|Hq].
  - exists (String (digit (n mod 10)) EmptyString).
    split; [reflexivity|]. split; [|now left].
    intros a. cbn [parse_decimal_from String.length].
    rewrite digit_value_digit by assumption.
    rewrite Nat.pow_1_r. lia.
  - destruct (IH (n / 10) (String (digit (n mod 10)) acc) ltac:(lia))
      as (ds & Hds & Hparse & Hlen).
    exists (ds ++ String (digit (n mod 10)) EmptyString)%string.
    split; [now rewrite append_snoc|].
    rewrite length_append. cbn [String.length].
    split.
    + intros a. rewrite parse_append, Hparse. cbn [parse_decimal_from].
      rewrite digit_value_digit by assumption.
      replace (String.length ds + 1) with (S (String.length ds)) by lia.
      rewrite Nat.pow_succ_r'. nia.
    + right. split; [destruct Hlen; lia|].
      replace (String.length ds + 1 - 1) with (String.length ds) by lia.
      destruct Hlen as [Hone|[Htwo Hpow]].
      * rewrite Hone. cbn. lia.
      * replace (String.length ds) with (S (String.length ds - 1)) by lia.
        rewrite Nat.pow_succ_r'. lia.
Qed.

Lemma str_of_nat_digits (n : nat) :
  parse_decimal (str_of_nat n) = n /\
  1 <= String.length (str_of_nat n) /\
  (n < 10 ^ 6 -> String.length (str_of_nat n) <= 6).
Proof.
  unfold str_of_nat, parse_decimal.
  destruct (decimal_digits (S n) n EmptyString ltac:(lia))
    as (ds & -> & Hparse & Hlen).
  rewrite append_empty. split; [rewrite Hparse; lia|].
  split; [destruct Hlen; lia|].
  intros Hn. destruct Hlen as [Hone|[Htwo Hpow]]; [lia|].
  assert (Hlt : 10 ^ (String.length ds - 1) < 10 ^ 6) by lia.
  apply Nat.pow_lt_mono_r_iff in Hlt; lia.
Qed.

(** X17: the name part [f"{n:06d}"] reads back as [n], so two different
    frame counts never give the same automatic file name; it has at least
    six characters, and exactly six below a million. *)
Theorem format_06d_reads_back (n : nat) :
  parse_decimal (format_06d n) = n /\
  6 <= String.length (format_06d n) /\
  (n < 10 ^ 6 -> String.length (format_06d n) = 6) /\
  (forall m, format_06d n = format_06d m -> n = m) /\
  (forall (Image : Type) (r1 r2 : Renderer Image),
     frame_count r1 = n -> auto_name r1 = auto_name r2 -> frame_count r2 = n).
Proof.
  assert (Hback : forall k, parse_decimal (format_06d k) = k).
  { intros k. unfold format_06d, parse_decimal.
    rewrite parse_append, parse_zeros.
    apply (proj1 (str_of_nat_digits k)). }
  assert (Hinj : forall m, format_06d n = format_06d m -> n = m).
  { intros m H. rewrite <- (Hback n), <- (Hback m). now rewrite H. }
  destruct (str_of_nat_digits n) as (_ & Hone & Hsix).
  split; [apply Hback|].
  unfold format_06d at 1 2. rewrite length_append, length_zeros.
  split; [lia|]. split; [intros Hn; specialize (Hsix Hn); lia|].
  split; [exact Hinj|].
  intros Image r1 r2 Hr1 Hname. unfold auto_name in Hname.
  cbn [append] in Hname. injection Hname as Hname.
  rewrite Hr1 in Hname. apply append_cancel_r in Hname.
  symmetry. now apply Hinj.
Qed.

(** *** Frames written to the video *)

Section WithImages.

Context {Image : Type}.
Variable cvtColor_RGB2BGR : Image -> Image.
Variable draw_control_info : Image -> Q -> Q -> Image.
Variable draw_debug_info : Image -> list (string * string) -> Image.

Local Abbreviation exec :=
  (exec cvtColor_RGB2BGR draw_control_info draw_debug_info).
Local Abbreviation exec_all :=
  (exec_all cvtColor_RGB2BGR draw_control_info draw_debug_info).
Local Abbreviation returned :=
  (returned cvtColor_RGB2BGR draw_control_info draw_debug_info).
Local Abbreviation render_frame :=
  (render_frame cvtColor_RGB2BGR draw_control_info draw_debug_info).

(** One [render_frame] while a writer is in place and video saving is
    on. *)
Lemma render_frame_recording (r : Renderer Image) (img : Image)
  (mo : option (Q * Q)) (dbg : option (list (string * string)))
  (vw : VideoWriter Image) :
  save_video r = true ->
  video_writer r = Some vw ->
  let r1 := fst (render_frame r img mo dbg) in
  save_video r1 = true /\
  video_writer r1
  = Some {| vw_path := vw_path vw; vw_fps := vw_fps vw; vw_size := vw_size vw;
            vw_frames := vw_frames vw ++ [snd (render_frame r img mo dbg)] |} /\
  frame_count r1 = frame_count r + 1 /\
  output_dir r1 = output_dir r.
Proof.
  intros Hsave Hvw. cbn zeta. unfold Renderer.render_frame.
  rewrite Hsave, Hvw. cbn. repeat split.
Qed.

(** While a writer is in place and video saving is on, the writer gets
    what the callers get. *)
Lemma recording_run : forall (calls : list (Call Image)) (r : Renderer Image)
    (disk : Disk Image) (vw : VideoWriter Image),
  save_video r = true ->
  video_writer r = Some vw ->
  forallb (@keeps_writer Image) calls = true ->
  let r' := fst (exec_all (r, disk) calls) in
  written r' = vw_frames vw ++ returned (r, disk) calls /\
  frame_count r'
  = frame_count r + List.length (filter (@is_render Image) calls) /\
  save_video r' = true /\ output_dir r' = output_dir r /\
  exists vw', video_writer r' = Some vw' /\
              vw_path vw' = vw_path vw /\ vw_fps vw' = vw_fps vw /\
              vw_size vw' = vw_size vw.
Proof.
  induction calls as [|c calls IH]; intros r disk vw Hsave Hvw Hkeep; cbn zeta.
  - cbn. unfold written. rewrite Hvw, app_nil_r.
    repeat split; try assumption; try lia. now exists vw.
  - cbn [forallb] in Hkeep. apply andb_prop in Hkeep as [Hc Hkeep].
    unfold Renderer.exec_all. cbn [fold_left Renderer.returned].
    destruct c as [| img mo dbg | frame name |]; try discriminate Hc.
    + cbn [Renderer.exec fst filter is_render List.length].
      destruct (render_frame_recording r img mo dbg vw Hsave Hvw)
        as (Hsave1 & Hvw1 & Hcount1 & Hdir1).
      destruct (IH (fst (render_frame r img mo dbg)) disk _ Hsave1 Hvw1 Hkeep)
        as (Hw & Hcount & Hs & Hdir & vw' & Hvw' & Hp & Hf & Hsz).
      unfold Renderer.exec_all in Hw, Hcount, Hs, Hdir, Hvw'.
      cbn [vw_frames vw_path vw_fps vw_size] in Hw, Hp, Hf, Hsz.
      split; [rewrite Hw, <- app_assoc; reflexivity|].
      split; [rewrite Hcount, Hcount1; lia|].
      split; [exact Hs|]. split; [now rewrite Hdir|].
      exists vw'. repeat split; assumption.
    + cbn [Renderer.exec fst filter is_render app].
      apply (IH r (save_frame r disk frame name) vw Hsave Hvw Hkeep).
Qed.


End WithImages.


End VideoFacts.

(** ** Where the overlays go *)

Module OverlayFacts.

Import Overlay.

Local Unset Implicit Arguments.

(** Rounding towards zero does not leave an interval with whole ends. *)
Lemma int_of_between (q : Q) (a b : Z) :
  (inject_Z a <= q)%Q -> (q <= inject_Z b)%Q -> (a <= int_of q <= b)%Z.
Proof.
  destruct q as [n d]. unfold Qle, int_of. cbn [Qnum Qden inject_Z].
  rewrite !Z.mul_1_r. intros Ha Hb.
  assert (Hd : (0 < Z.pos d)%Z) by reflexivity.
  destruct (Z.le_gt_cases 0 n) as [Hn|Hn].
  - rewrite Z.quot_div_nonneg by assumption. split.
    + apply Z.div_le_lower_bound; lia.
    + apply Z.div_le_upper_bound; lia.
  - replace n with (- - n)%Z by lia.
    rewrite Z.quot_opp_l by lia.
    rewrite Z.quot_div_nonneg by lia.
    assert (Hlow : (- b <= - n / Z.pos d)%Z)
      by (apply Z.div_le_lower_bound; lia).
    assert (Hup : (- n / Z.pos d <= - a)%Z)
      by (apply Z.div_le_upper_bound; lia).
    lia.
Qed.

Lemma int_of_whole (q : Q) (z : Z) : (q == inject_Z z)%Q -> int_of q = z.
Proof.
  intros Hq.
  assert (H : (z <= int_of q <= z)%Z)
    by (apply int_of_between; rewrite Hq; apply Qle_refl).
  lia.
Qed.

(** X19: for a steering and a throttle value between -1 and 1,
    [_draw_control_info] keeps both indicators inside their 200 pixel
    bars: the steering line stands between the left and the right edge of
    the upper bar, in its middle for 0 and on an edge for -1 and 1, and
    the throttle rectangle is between 0 and 200 pixels wide, empty for -1
    and full for 1.  The bars sit 220 pixels left of the right edge, 60
    and 30 pixels above the bottom. *)
Theorem control_indicators_stay_in_bars
  (width height : Z) (steering throttle : Q) :
  (-1 <= steering)%Q -> (steering <= 1)%Q ->
  (-1 <= throttle)%Q -> (throttle <= 1)%Q ->
  let x := (width - 220)%Z in
  let y := (height - 60)%Z in
  exists pos filled : Z,
    draw_control_info width height steering throttle
    = [ Rectangle x y (x + 200) (y + 20) black (-1);
        Line pos y pos (y + 20) green 2;
        Rectangle x (y + 30) (x + 200) (y + 30 + 20) black (-1);
        Rectangle x (y + 30) (x + filled) (y + 30 + 20) green (-1) ] /\
    (x <= pos <= x + 200)%Z /\ (0 <= filled <= 200)%Z /\
    ((steering == 0)%Q -> pos = (x + 100)%Z) /\
    ((steering == -1)%Q -> pos = x) /\
    ((steering == 1)%Q -> pos = (x + 200)%Z) /\
    ((throttle == -1)%Q -> filled = 0%Z) /\
    ((throttle == 1)%Q -> filled = 200%Z).
Proof.
  intros Hs1 Hs2 Ht1 Ht2. cbn zeta.
  unfold draw_control_info.
  replace (width - 200 - 20)%Z with (width - 220)%Z by lia.
  set (x := (width - 220)%Z).
  set (sq := (inject_Z x + inject_Z 200 / 2 * (1 + steering))%Q).
  set (tq := (inject_Z 200 * (throttle + 1) / 2)%Q).
  exists (int_of sq), (int_of tq). split; [reflexivity|].
  clearbody x.
  assert (Hx200 : (inject_Z (x + 200) == inject_Z x + 200)%Q)
    by (rewrite inject_Z_plus; reflexivity).
  assert (Hx100 : (inject_Z (x + 100) == inject_Z x + 100)%Q)
    by (rewrite inject_Z_plus; reflexivity).
  assert (H200 : (inject_Z 200 == 200)%Q) by reflexivity.
  assert (Hsq : (sq == inject_Z x + 100 * (1 + steering))%Q).
  { unfold sq, Qdiv. change (/ 2)%Q with (1 # 2)%Q. rewrite H200. lra. }
  assert (Htq : (tq == 100 * (throttle + 1))%Q).
  { unfold tq, Qdiv. change (/ 2)%Q with (1 # 2)%Q. rewrite H200. lra. }
  clearbody sq tq.
  split; [|split; [|repeat split]].
  - apply int_of_between; rewrite Hsq, ?Hx200; lra.
  - apply int_of_between; rewrite Htq;
      change (inject_Z 0) with 0%Q; change (inject_Z 200) with 200%Q; lra.
  - intros Hs. apply int_of_whole. rewrite Hsq, Hx100, Hs. lra.
  - intros Hs. apply int_of_whole. rewrite Hsq, Hs. lra.
  - intros Hs. apply int_of_whole. rewrite Hsq, Hx200, Hs. lra.
  - intros Ht. apply int_of_whole. rewrite Htq, Ht.
    change (inject_Z 0) with 0%Q. lra.
  - intros Ht. apply int_of_whole. rewrite Htq, Ht.
    change (inject_Z 200) with 200%Q. lra.
Qed.

(** Half steering to the left and three quarters throttle on a 960 by
    480 frame. *)
Lemma control_indicators_stay_in_bars_witness :
  exists pos filled : Z,
    draw_control_info 960 480 (-0.5) 0.75
    = [ Rectangle 740 420 940 440 black (-1);
        Line pos 420 pos 440 green 2;
        Rectangle 740 450 940 470 black (-1);
        Rectangle 740 450 (740 + filled) 470 green (-1) ] /\
    (740 <= pos <= 940)%Z /\ (0 <= filled <= 200)%Z.
Proof.
  destruct (control_indicators_stay_in_bars 960 480 (-0.5) 0.75)
    as (pos & filled & Hdraw & Hpos & Hfilled & _);
    try (unfold Qle; cbn; lia).
  exists pos, filled. repeat split; try assumption; try apply Hpos;
    try apply Hfilled.
Defined.

(** X20: [_draw_debug_info] writes one line per entry, in the order of
    the dict: entry number [i] (from 0) is written as ["key: value"] at
    x = 10 and y = 30 + 20 i, so no two lines share a height. *)
Theorem debug_lines_are_stacked (debug_info : list (string * string)) :
  List.length (draw_debug_info debug_info) = List.length debug_info /\
  forall i key value,
    nth_error debug_info i = Some (key, value) ->
    nth_error (draw_debug_info debug_info) i
    = Some (PutText (key ++ ": " ++ value)%string 10
                    (30 + 20 * Z.of_nat i) white).
Proof.
  unfold draw_debug_info. generalize 30%Z as y.
  induction debug_info as [|[k v] rest IH]; intros y.
  - split; [reflexivity|]. intros [|i] key value H; discriminate H.
  - destruct (IH (y + 20)%Z) as [Hlen Hnth]. split.
    + cbn. now rewrite Hlen.
    + intros [|i] key value H.
      * cbn in H. injection H as -> ->. cbn. do 2 f_equal. lia.
      * cbn [nth_error] in H |- *. cbn [debug_lines nth_error].
        rewrite (Hnth i key value H). do 2 f_equal. lia.
Qed.

End OverlayFacts.
